(** * Currency exchange service: rate cache and conversion engine

    A shallow embedding of [app.py]: the memoised provider call
    [get_exchange_rates], the hourly key [get_cache_key],
    [validate_currency] and the two HTTP handlers [convert_currency] and
    [get_rates], with the library pieces they stand on
    ([functools.lru_cache], [datetime], [float], [round], [str.upper]).

    Conventions of the model:
    - Python [float] is IEEE binary64, given by [spec_float] with
      [prec = 53] and [emax = 1024];
    - text is ASCII: a Python [str] is a Rocq [string], and the case
      mapping and the numeric syntax are the ASCII ones;
    - the outside world (wall clock, pricing provider) is an environment
      of oracles indexed by the number of readings / calls made so far;
    - the body of a provider reply is any JSON value ([json]), held the
      way [json.loads] builds it, [None] being [JNull];
    - a Python exception is a [Raise] outcome;
    - requests and form actions are taken one after the other, each
      finished before the next starts. *)

From Stdlib Require Import Ascii String SpecFloat.
From stdpp Require Import base option list strings gmap fin_maps.

Local Open Scope Z_scope.

(** ** Text *)

Module Text.

Definition code (c : ascii) : Z := Z.of_N (N_of_ascii c).

Definition is_lower (c : ascii) : bool := (97 <=? code c) && (code c <=? 122).
Definition is_digit (c : ascii) : bool := (48 <=? code c) && (code c <=? 57).

(** [Py_ISSPACE]: space, \t, \n, \v, \f, \r. *)
Definition is_space (c : ascii) : bool :=
  ((9 <=? code c) && (code c <=? 13)) || (code c =? 32).

Definition upper_char (c : ascii) : ascii :=
  if is_lower c then ascii_of_N (Z.to_N (code c - 32)) else c.

Definition lower_char (c : ascii) : ascii :=
  if (65 <=? code c) && (code c <=? 90)
  then ascii_of_N (Z.to_N (code c + 32)) else c.

(** [str.upper()] *)
Fixpoint upper (s : string) : string :=
  match s with
  | EmptyString => EmptyString
  | String c r => String (upper_char c) (upper r)
  end.

Fixpoint lower (s : string) : string :=
  match s with
  | EmptyString => EmptyString
  | String c r => String (lower_char c) (lower r)
  end.

Fixpoint lstrip (s : string) : string :=
  match s with
  | EmptyString => EmptyString
  | String c r => if is_space c then lstrip r else s
  end.

Fixpoint rstrip (s : string) : string :=
  match s with
  | EmptyString => EmptyString
  | String c r =>
      match rstrip r with
      | EmptyString => if is_space c then EmptyString else String c EmptyString
      | r' => String c r'
      end
  end.

Definition digit_value (c : ascii) : Z := code c - 48.

(** Longest prefix of decimal digits, and what follows it. *)
Fixpoint span_digits (s : string) : list Z * string :=
  match s with
  | EmptyString => ([], EmptyString)
  | String c r =>
      if is_digit c
      then let '(ds, rest) := span_digits r in (digit_value c :: ds, rest)
      else ([], s)
  end.

Definition digits_to_Z (ds : list Z) : Z :=
  fold_left (fun acc d => 10 * acc + d) ds 0.

(** Decimal rendering with zero padding, as [%0<width>d] does. *)
Fixpoint nat_digits (fuel : nat) (n : Z) (acc : string) : string :=
  match fuel with
  | O => acc
  | S fuel' =>
      let acc' := String (ascii_of_N (Z.to_N (48 + n mod 10))) acc in
      if n / 10 =? 0 then acc' else nat_digits fuel' (n / 10) acc'
  end.

Definition decimal (n : Z) : string :=
  nat_digits (S (Z.to_nat (Z.log2 n))) n EmptyString.

Fixpoint zeros (n : nat) : string :=
  match n with
  | O => EmptyString
  | S k => String "0" (zeros k)
  end.

Definition pad0 (width : nat) (n : Z) : string :=
  if n <? 0
  then let d := decimal (- n) in
       String "-" (zeros (width - 1 - String.length d) +:+ d)
  else let d := decimal n in zeros (width - String.length d) +:+ d.

End Text.

(** ** Floating point: Python [float], [float(str)], [*], [<=], [round(x, 2)] *)

Module Float.

Definition float : Type := spec_float.

Definition prec : Z := 53.
Definition emax : Z := 1024.

Definition zero : float := S754_zero false.
Definition nan : float := S754_nan.
Definition infinity (neg : bool) : float := S754_infinity neg.

Definition mul (x y : float) : float := SFmul prec emax x y.
Definition leb (x y : float) : bool := SFleb x y.
Definition ltb (x y : float) : bool := SFltb x y.

(** The binary64 nearest to [p / q] (ties to even), for [0 < p], [0 < q]. *)
Definition nearest (neg : bool) (p q : Z) : float :=
  let '(m, e, l) := SFdiv_core_binary prec emax p 0 q 0 in
  binary_round_aux prec emax neg m e l.

(** The binary64 nearest to [m * 10^e]. *)
Definition of_decimal (neg : bool) (m e : Z) : float :=
  if m =? 0 then S754_zero neg
  else if 0 <=? e then nearest neg (m * 10 ^ e) 1
  else nearest neg m (10 ^ (- e)).

(** [_Py_string_to_number_with_underscores]: an underscore is accepted
    only between two digits, and is dropped. *)
Fixpoint drop_underscores (prev : ascii) (s : string) : option string :=
  match s with
  | EmptyString => if Ascii.eqb prev "_" then None else Some EmptyString
  | String c r =>
      if Ascii.eqb c "_"
      then if Text.is_digit prev then drop_underscores c r else None
      else if Ascii.eqb prev "_" && negb (Text.is_digit c) then None
      else String c <$> drop_underscores c r
  end.

Definition split_sign (s : string) : bool * string :=
  match s with
  | String "-" r => (true, r)
  | String "+" r => (false, r)
  | _ => (false, s)
  end.

(** [_Py_parse_inf_or_nan], after the sign. *)
Definition parse_inf_or_nan (neg : bool) (s : string) : option float :=
  let l := Text.lower s in
  if String.eqb l "inf" || String.eqb l "infinity" then Some (infinity neg)
  else if String.eqb l "nan" then Some nan
  else None.

(** The exponent part: [e] or [E], an optional sign, one digit or more;
    it has to reach the end of the text. *)
Definition parse_exponent (s : string) : option Z :=
  match s with
  | EmptyString => Some 0
  | String c r =>
      if Ascii.eqb c "e" || Ascii.eqb c "E" then
        let '(neg, r1) := split_sign r in
        match Text.span_digits r1 with
        | ((_ :: _) as ds, EmptyString) =>
            Some (if neg then - Text.digits_to_Z ds else Text.digits_to_Z ds)
        | _ => None
        end
      else None
  end.

(** [_Py_dg_strtod], after the sign: digits, an optional point and more
    digits (one digit at least overall), an optional exponent. *)
Definition parse_decimal (neg : bool) (s : string) : option float :=
  let '(int_part, r1) := Text.span_digits s in
  let '(frac_part, r2) :=
    match r1 with
    | String "." r => Text.span_digits r
    | _ => ([], r1)
    end in
  match int_part ++ frac_part with
  | [] => None
  | ds =>
      e ← parse_exponent r2;
      Some (of_decimal neg (Text.digits_to_Z ds) (e - Z.of_nat (length frac_part)))
  end.

(** [float(s)] for a [str]; [None] stands for [ValueError]. *)
Definition float_of_string (s : string) : option float :=
  clean ← drop_underscores "000" s;
  let '(neg, body) := split_sign (Text.rstrip (Text.lstrip clean)) in
  match parse_decimal neg body with
  | Some x => Some x
  | None => parse_inf_or_nan neg body
  end.

(** Nearest integer to [p / q], ties to even ([0 <= p], [0 < q]). *)
Definition round_half_even (p q : Z) : Z :=
  let n := p / q in
  let r := p mod q in
  match 2 * r ?= q with
  | Lt => n
  | Gt => n + 1
  | Eq => if Z.even n then n else n + 1
  end.

(** [float(n)] for an [int] that is not too large: the nearest binary64;
    an [int] beyond the range comes out as an infinity here, and is an
    [OverflowError] in [Json.as_float]. *)
Definition of_Z (n : Z) : float :=
  match n with
  | Z0 => zero
  | Zpos p => nearest false (Zpos p) 1
  | Zneg p => nearest true (Zpos p) 1
  end.

(** [round(x, 2)]: non-finite values and zeros round to themselves; a
    finite [x] goes to the correctly rounded two-place decimal, and that
    decimal back to the nearest binary64. *)
Definition round2 (x : float) : float :=
  match x with
  | S754_finite neg m e =>
      let hundredths :=
        if 0 <=? e then 100 * Z.pos m * 2 ^ e
        else round_half_even (100 * Z.pos m) (2 ^ (- e)) in
      if hundredths =? 0 then S754_zero neg else nearest neg hundredths 100
  | _ => x
  end.

End Float.


(** ** Outcomes of Python code *)

Inductive exn : Type :=
  | ValueError
  | OverflowError
  | AttributeError
  | TypeError
  | KeyError.

Inductive result (A : Type) : Type :=
  | Ret (a : A)
  | Raise (e : exn).

Arguments Ret {A} a.
Arguments Raise {A} e.

#[global] Instance result_ret : MRet result := @Ret.
#[global] Instance result_bind : MBind result :=
  fun A B f m => match m with Ret a => f a | Raise e => Raise e end.
#[global] Instance result_fmap : FMap result :=
  fun A B f m => match m with Ret a => Ret (f a) | Raise e => Raise e end.

(** ** [datetime] and [timedelta], after CPython's [_datetimemodule.c] *)

Module Datetime.

Record datetime : Type := mk_datetime {
  year : Z; month : Z; day : Z;
  hour : Z; minute : Z; second : Z; microsecond : Z }.

Record timedelta : Type := mk_timedelta {
  days : Z; seconds : Z; microseconds : Z }.

Definition MINYEAR : Z := 1.
Definition MAXYEAR : Z := 9999.
Definition MAXORDINAL : Z := 3652059.
Definition MAX_DELTA_DAYS : Z := 999999999.

Definition _days_in_month : list Z :=
  [0; 31; 28; 31; 30; 31; 30; 31; 31; 30; 31; 30; 31].
Definition _days_before_month : list Z :=
  [0; 0; 31; 59; 90; 120; 151; 181; 212; 243; 273; 304; 334].

Definition table (t : list Z) (i : Z) : Z := default 0 (t !! Z.to_nat i).

Definition is_leap (y : Z) : bool :=
  (Z.rem y 4 =? 0) && (negb (Z.rem y 100 =? 0) || (Z.rem y 400 =? 0)).

Definition days_in_month (y m : Z) : Z :=
  if (m =? 2) && is_leap y then 29 else table _days_in_month m.

Definition days_before_month (y m : Z) : Z :=
  table _days_before_month m + (if (2 <? m) && is_leap y then 1 else 0).

Definition days_before_year (y : Z) : Z :=
  let p := y - 1 in
  p * 365 + Z.quot p 4 - Z.quot p 100 + Z.quot p 400.

Definition ymd_to_ord (y m d : Z) : Z :=
  days_before_year y + days_before_month y m + d.

Definition DI4Y : Z := 1461.
Definition DI100Y : Z := 36524.
Definition DI400Y : Z := 146097.

Definition ord_to_ymd (ordinal : Z) : Z * Z * Z :=
  let o := ordinal - 1 in
  let n400 := Z.quot o DI400Y in
  let n := Z.rem o DI400Y in
  let n100 := Z.quot n DI100Y in
  let n := Z.rem n DI100Y in
  let n4 := Z.quot n DI4Y in
  let n := Z.rem n DI4Y in
  let n1 := Z.quot n 365 in
  let n := Z.rem n 365 in
  let y := n400 * 400 + 1 + n100 * 100 + n4 * 4 + n1 in
  if (n1 =? 4) || (n100 =? 4) then (y - 1, 12, 31)
  else
    let leapyear := (n1 =? 3) && (negb (n4 =? 24) || (n100 =? 3)) in
    let m := Z.shiftr (n + 50) 5 in
    let preceding :=
      table _days_before_month m + (if (2 <? m) && leapyear then 1 else 0) in
    if n <? preceding
    then (y, m - 1, n - (preceding - days_in_month y (m - 1)) + 1)
    else (y, m, n - preceding + 1).

(** Floor division of [lo] by [factor], the carry going to [hi]. *)
Definition normalize_pair (hi lo factor : Z) : Z * Z :=
  if (lo <? 0) || (factor <=? lo)
  then (hi + lo / factor, lo mod factor)
  else (hi, lo).

Definition normalize_y_m_d (y m d : Z) : result (Z * Z * Z) :=
  let dim := days_in_month y m in
  let in_range '(y, m, d) :=
    if (MINYEAR <=? y) && (y <=? MAXYEAR) then Ret (y, m, d)
    else Raise OverflowError in
  if (d <? 1) || (dim <? d) then
    if d =? 0 then
      if 0 <? m - 1 then in_range (y, m - 1, days_in_month y (m - 1))
      else in_range (y - 1, 12, 31)
    else if d =? dim + 1 then
      if 12 <? m + 1 then in_range (y + 1, 1, 1)
      else in_range (y, m + 1, 1)
    else
      let ordinal := ymd_to_ord y m 1 + d - 1 in
      if (ordinal <? 1) || (MAXORDINAL <? ordinal) then Raise OverflowError
      else Ret (ord_to_ymd ordinal)
  else in_range (y, m, d).

Definition normalize_datetime (t : datetime) : result datetime :=
  let '(s, us) := normalize_pair (second t) (microsecond t) 1000000 in
  let '(mi, s) := normalize_pair (minute t) s 60 in
  let '(h, mi) := normalize_pair (hour t) mi 60 in
  let '(d, h) := normalize_pair (day t) h 24 in
  '(y, m, d) ← normalize_y_m_d (year t) (month t) d;
  Ret (mk_datetime y m d h mi s us).

(** [timedelta(minutes=.., seconds=.., microseconds=..)] on integers. *)
Definition timedelta_new (minutes secs micros : Z) : result timedelta :=
  let x := micros + secs * 1000000 + minutes * 60000000 in
  let q := x / 1000000 in
  let d := q / 86400 in
  if (- MAX_DELTA_DAYS <=? d) && (d <=? MAX_DELTA_DAYS)
  then Ret (mk_timedelta d (q mod 86400) (x mod 1000000))
  else Raise OverflowError.

(** [add_datetime_timedelta(date, delta, factor)] *)
Definition add_datetime_timedelta (t : datetime) (delta : timedelta) (factor : Z)
  : result datetime :=
  normalize_datetime
    (mk_datetime (year t) (month t) (day t + days delta * factor)
       (hour t) (minute t)
       (second t + seconds delta * factor)
       (microsecond t + microseconds delta * factor)).

(** [t - delta] *)
Definition sub (t : datetime) (delta : timedelta) : result datetime :=
  add_datetime_timedelta t delta (-1).

(** [t.isoformat()] for a naive datetime *)
Definition isoformat (t : datetime) : string :=
  Text.pad0 4 (year t) +:+ "-" +:+ Text.pad0 2 (month t) +:+ "-" +:+
  Text.pad0 2 (day t) +:+ "T" +:+ Text.pad0 2 (hour t) +:+ ":" +:+
  Text.pad0 2 (minute t) +:+ ":" +:+ Text.pad0 2 (second t) +:+
  (if microsecond t =? 0 then "" else "." +:+ Text.pad0 6 (microsecond t)).

(** What [datetime.now()] can return. *)
Definition valid (t : datetime) : Prop :=
  MINYEAR <= year t <= MAXYEAR /\ 1 <= month t <= 12 /\
  1 <= day t <= days_in_month (year t) (month t) /\
  0 <= hour t < 24 /\ 0 <= minute t < 60 /\ 0 <= second t < 60 /\
  0 <= microsecond t < 1000000.

End Datetime.

(** ** The service state and the outside world *)

(** A JSON value as [response.json()] builds it: [None], [bool], [int],
    [float] ([NaN] and [Infinity] are accepted by [json.loads]), [str],
    [list] and [dict]. *)
#[warnings="-register-all"] Inductive json : Type :=
  | JNull
  | JBool (b : bool)
  | JInt (n : Z)
  | JFloat (x : Float.float)
  | JString (s : string)
  | JArray (l : list json)
  | JObject (m : gmap string json).

Module Json.

(** [needle in hay] for two [str]. *)
Fixpoint is_substring (needle hay : string) : bool :=
  String.prefix needle hay ||
  match hay with
  | EmptyString => false
  | String _ r => is_substring needle r
  end.

(** The float that [amount * v] and [format(v, '.4f')] make of [v]: a
    [float] as it is, an [int] (a [bool] is one) converted, anything else
    a [TypeError]. *)
Definition as_float (v : json) : result Float.float :=
  match v with
  | JFloat x => Ret x
  | JInt n =>
      match Float.of_Z n with
      | S754_infinity _ => Raise OverflowError
      | x => Ret x
      end
  | JBool b => Ret (Float.of_Z (if b then 1 else 0))
  | JNull | JString _ | JArray _ | JObject _ => Raise TypeError
  end.

(** [v == s] for a [str] [s]. *)
Definition is_string (v : json) (s : string) : bool :=
  match v with
  | JString s' => String.eqb s' s
  | _ => false
  end.

(** [amount * v] *)
Definition times (amount : Float.float) (v : json) : result Float.float :=
  x ← as_float v; Ret (Float.mul amount x).

(** [key in v] for a [str] key: a key of a [dict], an element of a
    [list], a substring of a [str]; the other values are not iterable. *)
Definition contains (v : json) (key : string) : result bool :=
  match v with
  | JObject m => Ret (bool_decide (is_Some (m !! key)))
  | JArray l => Ret (existsb (fun x => is_string x key) l)
  | JString s => Ret (is_substring key s)
  | JNull | JBool _ | JInt _ | JFloat _ => Raise TypeError
  end.

(** [v[key]] for a [str] key. *)
Definition subscript (v : json) (key : string) : result json :=
  match v with
  | JObject m =>
      match m !! key with
      | Some x => Ret x
      | None => Raise KeyError
      end
  | _ => Raise TypeError
  end.

(** [v.items()], as a map. *)
Definition items (v : json) : result (gmap string json) :=
  match v with
  | JObject m => Ret m
  | _ => Raise AttributeError
  end.

(** [v.get(key, dflt)] *)
Definition get (v : json) (key : string) (dflt : json) : result json :=
  match v with
  | JObject m => Ret (default dflt (m !! key))
  | _ => Raise AttributeError
  end.

End Json.

(** A rate table: a JSON object, as [conversion_rates] is in a proper
    reply. *)
Abbreviation RateTable := (gmap string json).

(** Arguments of a memoised call: [(base_currency, timestamp_key)]. *)
Abbreviation cache_key := (string * string)%type.

(** What one outbound [requests.get(...)] followed by [response.json()]
    can come back with. *)
Inductive provider_reply : Type :=
  | RequestFailed
      (* a [requests.exceptions.RequestException]: connection error,
         timeout, error status from [raise_for_status], body not JSON *)
  | Replied (data : json).
      (* the body, parsed: any JSON value *)

(** ** [functools.lru_cache(maxsize)] *)

Module Lru.

Record cache : Type := mk_cache {
  entries : list (cache_key * json);  (* most recent first *)
  hits : nat;
  misses : nat }.

Definition empty : cache := mk_cache [] 0 0.

(** The entry of [k], taken out of the list. *)
Fixpoint find (k : cache_key) (l : list (cache_key * json))
  : option (json * list (cache_key * json)) :=
  match l with
  | [] => None
  | (k', v) :: r =>
      if decide (k = k') then Some (v, r)
      else '(x, r') ← find k r; Some (x, (k', v) :: r')
  end.

(** A new entry becomes the most recent one; a full cache first drops
    its least recently used entry. *)
Definition store (maxsize : nat) (k : cache_key) (v : json)
    (l : list (cache_key * json)) :=
  (k, v) :: (if decide (maxsize ≤ length l)%nat then removelast l else l).

Definition keys (l : list (cache_key * json)) : list cache_key :=
  fst <$> l.

End Lru.

Record World : Type := mk_world {
  w_cache : Lru.cache;
  w_ticks : nat;                                   (* clock readings taken *)
  w_fetches : list (cache_key * provider_reply) }. (* provider calls, latest first *)

Record Env : Type := mk_env {
  clock : nat → Datetime.datetime;            (* the n-th [datetime.now()] *)
  provider : nat → string → provider_reply }. (* the n-th outbound call *)

Definition initial_world : World := mk_world Lru.empty 0 [].

Definition set_cache (w : World) (c : Lru.cache) : World :=
  mk_world c (w_ticks w) (w_fetches w).

(** Python code running in the service: it may raise, and it acts on the world. *)
Definition Py (A : Type) : Type := World → result A * World.

#[global] Instance Py_ret : MRet Py := fun A a w => (Ret a, w).
#[global] Instance Py_bind : MBind Py :=
  fun A B f m w =>
    match m w with
    | (Ret a, w') => f a w'
    | (Raise e, w') => (Raise e, w')
    end.

Definition lift {A} (r : result A) : Py A := fun w => (r, w).

(** [datetime.now()] *)
Definition datetime_now (env : Env) : Py Datetime.datetime :=
  fun w => (Ret (clock env (w_ticks w)),
            mk_world (w_cache w) (S (w_ticks w)) (w_fetches w)).

(** The decorator: a hit moves the entry to the front and returns its
    value; a miss runs the function and stores what it returns, unless it
    raises. *)
Definition lru_cache (maxsize : nat)
    (user_function : string → string → Py json)
    (base_currency timestamp_key : string) : Py json :=
  fun w =>
    let key := (base_currency, timestamp_key) in
    let c := w_cache w in
    match Lru.find key (Lru.entries c) with
    | Some (v, rest) =>
        (Ret v, set_cache w (Lru.mk_cache ((key, v) :: rest)
                               (S (Lru.hits c)) (Lru.misses c)))
    | None =>
        let w1 := set_cache w (Lru.mk_cache (Lru.entries c) (Lru.hits c)
                                 (S (Lru.misses c))) in
        match user_function base_currency timestamp_key w1 with
        | (Ret v, w2) =>
            let c2 := w_cache w2 in
            match Lru.find key (Lru.entries c2) with
            | Some _ => (Ret v, w2)
            | None =>
                (Ret v, set_cache w2
                          (Lru.mk_cache (Lru.store maxsize key v (Lru.entries c2))
                             (Lru.hits c2) (Lru.misses c2)))
            end
        | (Raise e, w2) => (Raise e, w2)
        end
    end.

(** ** The application *)

Definition SUPPORTED_CURRENCIES : list string :=
  ["GBP"; "USD"; "EUR"; "JPY"; "AUD"; "CAD"; "CHF"; "CNY"].

(** What the body of [get_exchange_rates] makes of a reply. *)
Definition rates_of_reply (reply : provider_reply) : result json :=
  match reply with
  | RequestFailed => Ret JNull
  | Replied data =>
      result ← Json.get data "result" JNull;
      if Json.is_string result "success"
      then Json.get data "conversion_rates" (JObject ∅)
      else Ret JNull
  end.

(** The body of [get_exchange_rates], before memoisation: one outbound call. *)
Definition fetch_exchange_rates (env : Env) (base_currency timestamp_key : string)
  : Py json :=
  fun w =>
    let reply := provider env (length (w_fetches w)) base_currency in
    (rates_of_reply reply,
     mk_world (w_cache w) (w_ticks w)
       ((base_currency, timestamp_key, reply) :: w_fetches w)).

Definition get_exchange_rates (env : Env) : string → string → Py json :=
  lru_cache 128 (fetch_exchange_rates env).

(** The key for the clock reading [now]. *)
Definition get_cache_key_at (now : Datetime.datetime) : result string :=
  delta ← Datetime.timedelta_new
            (Datetime.minute now mod 60) (Datetime.second now)
            (Datetime.microsecond now);
  cache_period ← Datetime.sub now delta;
  Ret (Datetime.isoformat cache_period).

Definition get_cache_key (env : Env) : Py string :=
  now ← datetime_now env; lift (get_cache_key_at now).

Definition validate_currency (currency : string) : bool :=
  bool_decide (Text.upper currency ∈ SUPPORTED_CURRENCIES).

(** *** HTTP handlers *)

Record Conversion : Type := mk_conversion {
  from_currency : string; from_amount : Float.float;
  to_currency : string; to_amount : Float.float;
  exchange_rate : json;
  timestamp : string }.

Inductive response : Type :=
  | MissingParameters
  | UnsupportedCurrency (code : string)
  | InvalidAmount
  | RatesUnavailable
  | RateNotFound (code : string)
  | Converted (c : Conversion)
  | RatesListing (base_currency : string) (rates : RateTable) (timestamp : string)
  | InternalServerError (e : exn).

Definition status_code (r : response) : Z :=
  match r with
  | MissingParameters | UnsupportedCurrency _ | InvalidAmount => 400
  | RatesUnavailable => 503
  | RateNotFound _ => 404
  | Converted _ | RatesListing _ _ _ => 200
  | InternalServerError _ => 500
  end.

(** [request.args.get(name, default)] *)
Definition args_get (args : gmap string string) (name dflt : string) : string :=
  default dflt (args !! name).

(** The outer [try: ... except Exception] of a handler. *)
Definition handler (body : Py response) : World → response * World :=
  fun w =>
    match body w with
    | (Ret r, w') => (r, w')
    | (Raise e, w') => (InternalServerError e, w')
    end.

Definition is_empty (s : string) : bool := bool_decide (s = "").

Definition convert_currency (env : Env) (args : gmap string string)
  : World → response * World :=
  handler (
    let from_currency := Text.upper (args_get args "from_currency" "") in
    let to_currency := Text.upper (args_get args "to_currency" "") in
    let amount_str := args_get args "amount" "" in
    if is_empty from_currency || is_empty to_currency || is_empty amount_str
    then mret MissingParameters
    else if negb (validate_currency from_currency)
    then mret (UnsupportedCurrency from_currency)
    else if negb (validate_currency to_currency)
    then mret (UnsupportedCurrency to_currency)
    else
      match Float.float_of_string amount_str with
      | None => mret InvalidAmount
      | Some amount =>
          if Float.leb amount Float.zero then mret InvalidAmount
          else
            cache_key ← get_cache_key env;
            rates ← get_exchange_rates env from_currency cache_key;
            match rates with
            | JNull => mret RatesUnavailable
            | _ =>
                listed ← lift (Json.contains rates to_currency);
                if negb listed then mret (RateNotFound to_currency)
                else
                  exchange_rate ← lift (Json.subscript rates to_currency);
                  converted_amount ← lift (Json.times amount exchange_rate);
                  let shown := Float.round2 converted_amount in
                  now ← datetime_now env;
                  mret (Converted
                          (mk_conversion from_currency amount to_currency shown
                             exchange_rate (Datetime.isoformat now)))
            end
      end).

Definition get_rates (env : Env) (args : gmap string string)
  : World → response * World :=
  handler (
    let base_currency := Text.upper (args_get args "base_currency" "GBP") in
    if negb (validate_currency base_currency)
    then mret (UnsupportedCurrency base_currency)
    else
      cache_key ← get_cache_key env;
      all_rates ← get_exchange_rates env base_currency cache_key;
      match all_rates with
      | JNull => mret RatesUnavailable
      | _ =>
          items ← lift (Json.items all_rates);
          let filtered_rates :=
            filter (fun kv => kv.1 ∈ SUPPORTED_CURRENCIES) items in
          now ← datetime_now env;
          mret (RatesListing base_currency filtered_rates (Datetime.isoformat now))
      end).

(** *** Requests served one after the other *)

Inductive request : Type :=
  | GET_convert (args : gmap string string)
  | GET_rates (args : gmap string string).

Definition serve_one (env : Env) (r : request) : World → response * World :=
  match r with
  | GET_convert args => convert_currency env args
  | GET_rates args => get_rates env args
  end.

Fixpoint serve (env : Env) (rs : list request) (w : World) : list response * World :=
  match rs with
  | [] => ([], w)
  | r :: rest =>
      let '(resp, w1) := serve_one env r w in
      let '(resps, w2) := serve env rest w1 in
      (resp :: resps, w2)
  end.

(** ** Notions used by the statements *)

(** [now] with minutes, seconds and microseconds set to zero. *)
Definition top_of_hour (now : Datetime.datetime) : Datetime.datetime :=
  Datetime.mk_datetime (Datetime.year now) (Datetime.month now) (Datetime.day now)
    (Datetime.hour now) 0 0 0.

(** The world after one more clock reading. *)
Definition tick (w : World) : World :=
  mk_world (w_cache w) (S (w_ticks w)) (w_fetches w).

(** From [w] on, every clock reading falls in the hour whose key is [b]. *)
Definition in_bucket (env : Env) (b : string) (w : World) : Prop :=
  ∀ n, (w_ticks w ≤ n)%nat → get_cache_key_at (clock env n) = Ret b.

(** The cache lookup of a handler: the key of the current hour, then the
    memoised call. *)
Definition lookup_rates (env : Env) (base_currency : string) : Py json :=
  cache_key ← get_cache_key env; get_exchange_rates env base_currency cache_key.

(** The entry of [k] holds [v], and the entries used more recently all
    belong to supported currencies in the bucket of [k]. *)
Definition pinned (k : cache_key) (v : json)
    (l : list (cache_key * json)) : Prop :=
  ∃ pre post,
    l = pre ++ (k, v) :: post ∧
    NoDup (Lru.keys pre) ∧ (k ∉ Lru.keys pre) ∧
    Forall (fun k' => k'.1 ∈ SUPPORTED_CURRENCIES ∧ k'.2 = k.2) (Lru.keys pre).

(** The provider calls made for key [k], latest first. *)
Definition fetches_for (k : cache_key) (log : list (cache_key * provider_reply))
  : list provider_reply :=
  snd <$> filter (fun f => f.1 = k) log.

(** A provider call after which [get_exchange_rates] returned (a table or
    [None]) instead of raising. *)
Definition returned (r : provider_reply) : bool :=
  match rates_of_reply r with Ret _ => true | Raise _ => false end.

(** The fields a handler reads from the query string. *)
Definition arg_from (args : gmap string string) : string :=
  Text.upper (args_get args "from_currency" "").
Definition arg_to (args : gmap string string) : string :=
  Text.upper (args_get args "to_currency" "").
Definition arg_amount (args : gmap string string) : string :=
  args_get args "amount" "".
Definition arg_base (args : gmap string string) : string :=
  Text.upper (args_get args "base_currency" "GBP").

(** All three parameters of a conversion are present and not empty. *)
Definition all_present (args : gmap string string) : bool :=
  negb (is_empty (arg_from args) || is_empty (arg_to args) || is_empty (arg_amount args)).

(** What [convert_currency] answers once its checks have passed, from the
    outcome of the cache lookup. *)
Definition convert_answer (env : Env) (from to : string) (amount : Float.float)
    (looked_up : result json * World) : response * World :=
  match looked_up with
  | (Raise e, w1) => (InternalServerError e, w1)
  | (Ret JNull, w1) => (RatesUnavailable, w1)
  | (Ret rates, w1) =>
      match Json.contains rates to with
      | Raise e => (InternalServerError e, w1)
      | Ret false => (RateNotFound to, w1)
      | Ret true =>
          match rate ← Json.subscript rates to;
                product ← Json.times amount rate;
                Ret (rate, product) with
          | Raise e => (InternalServerError e, w1)
          | Ret (rate, product) =>
              (Converted (mk_conversion from amount to (Float.round2 product) rate
                            (Datetime.isoformat (clock env (w_ticks w1)))),
               tick w1)
          end
      end
  end.

(** The same for [get_rates]. *)
Definition rates_answer (env : Env) (base : string)
    (looked_up : result json * World) : response * World :=
  match looked_up with
  | (Raise e, w1) => (InternalServerError e, w1)
  | (Ret JNull, w1) => (RatesUnavailable, w1)
  | (Ret all_rates, w1) =>
      match Json.items all_rates with
      | Raise e => (InternalServerError e, w1)
      | Ret items =>
          (RatesListing base
             (filter (fun kv => kv.1 ∈ SUPPORTED_CURRENCIES) items)
             (Datetime.isoformat (clock env (w_ticks w1))),
           tick w1)
      end
  end.

(** The conversion a response carries, if it is one. *)
Definition conversion_of (r : response) : option Conversion :=
  match r with Converted c => Some c | _ => None end.

(** [n] is the integer nearest to [scale * m * 2^e], the even one when two
    integers are equally near. *)
Definition nearest_integer (scale : Z) (m : positive) (e n : Z) : Prop :=
  let num := scale * Z.pos m * 2 ^ Z.max e 0 in
  let den := 2 ^ Z.max (- e) 0 in
  2 * Z.abs (num - n * den) <= den ∧
  (2 * Z.abs (num - n * den) = den → Z.even n = true).

(** Rounding to two decimal places, in the words of the specification:
    [r] is the float of the two-place decimal [n / 100] nearest to [x];
    zeros, infinities and NaN round to themselves. *)
Definition rounded_to_two_places (x r : Float.float) : Prop :=
  match x with
  | S754_finite neg m e =>
      ∃ n, nearest_integer 100 m e n ∧ r = Float.of_decimal neg n (-2)
  | _ => r = x
  end.


(** ** Scenarios *)

Definition quarter_past_ten : Datetime.datetime :=
  Datetime.mk_datetime 2024 7 15 10 17 42 123456.

Definition rate_1_27 : Float.float := Float.of_decimal false 127 (-2).

Definition usd_table : RateTable := {[ "USD" := JFloat rate_1_27 ]}.

Definition eur_table : RateTable :=
  list_to_map [("USD", JFloat (Float.of_decimal false 11 (-1)));
               ("JPY", JInt 160);
               ("XXX", JFloat (Float.of_decimal false 5 0))].

(** A proper reply: [{"result": "success", "conversion_rates": rates}]. *)
Definition success_with (rates : json) : provider_reply :=
  Replied (JObject (list_to_map [("result", JString "success");
                                 ("conversion_rates", rates)])).

Definition success (t : RateTable) : provider_reply := success_with (JObject t).

(** The clock stands at 10:17:42 and the provider answers every call. *)
Definition env_up : Env :=
  mk_env (fun _ => quarter_past_ten) (fun _ _ => success usd_table).

Definition env_eur : Env :=
  mk_env (fun _ => quarter_past_ten) (fun _ _ => success eur_table).

(** The first outbound call fails, the later ones succeed. *)
Definition env_down_once : Env :=
  mk_env (fun _ => quarter_past_ten)
         (fun n _ => match n with O => RequestFailed | _ => success usd_table end).

(** The first reply is a JSON array, the later ones are proper. *)
Definition env_garbled_once : Env :=
  mk_env (fun _ => quarter_past_ten)
         (fun n _ => match n with O => Replied (JArray []) | _ => success usd_table end).

(** Two requests forty minutes apart within the ten o'clock hour. *)
Definition env_two_visits : Env :=
  mk_env (fun n => Datetime.mk_datetime 2024 7 15 10
                     (if (n <? 2)%nat then 0 else 40) (Z.of_nat n) 0)
         (fun _ _ => success usd_table).


Definition query (from to amount : string) : gmap string string :=
  list_to_map [("from_currency", from); ("to_currency", to); ("amount", amount)].

Definition gbp_usd_100 : gmap string string := query "gbp" "USD" "100".

Definition ten_o_clock : string := "2024-07-15T10:00:00".

Definition one_hundred : Float.float := Float.of_decimal false 100 0.
Definition one_two_seven : Float.float := Float.of_decimal false 127 0.

(** The answer to [gbp_usd_100] at 10:17:42 with USD at 1.27. *)
Definition gbp_usd_answer : Conversion :=
  mk_conversion "GBP" one_hundred "USD" one_two_seven (JFloat rate_1_27)
    "2024-07-15T10:17:42.123456".


Definition eur_query : gmap string string := {[ "base_currency" := "EUR" ]}.

(** 3, 1.2345, 3.7035 (their product as a binary64) and 3.7, bit by bit. *)
Definition three : Float.float := S754_finite false 6755399441055744 (-51).
Definition rate_1_2345 : Float.float := S754_finite false 5559693739988877 (-52).
Definition product_3_7035 : Float.float := S754_finite false 8339540609983316 (-51).
Definition three_point_seven : Float.float := S754_finite false 8331659310635418 (-51).

Definition odd_table : RateTable := {[ "USD" := JFloat rate_1_2345 ]}.

(** The provider quotes USD at 1.2345. *)
Definition env_odd_rate : Env :=
  mk_env (fun _ => quarter_past_ten) (fun _ _ => success odd_table).

Definition gbp_usd_3 : gmap string string := query "GBP" "USD" "3".

Definition text_table : RateTable := {[ "USD" := JString "1.27" ]}.

(** The provider quotes USD as the text "1.27". *)
Definition env_text_rate : Env :=
  mk_env (fun _ => quarter_past_ten) (fun _ _ => success text_table).

Definition twice : list request :=
  [GET_convert gbp_usd_100; GET_convert gbp_usd_100].

(** ** Fixed-point formatting of floats: [format(x, '.Nf')] and [',.Nf'] *)

Module Format.

(** Commas between groups of three digits, counted from the right. *)
Fixpoint group3 (s : string) : string :=
  match s with
  | EmptyString => EmptyString
  | String c r =>
      if (0 <? Z.of_nat (String.length r)) && (Z.of_nat (String.length r) mod 3 =? 0)
      then String c (String "," (group3 r))
      else String c (group3 r)
  end.

(** [|x| * 10^places] rounded to an integer, ties to even. *)
Definition scaled (places : nat) (m : positive) (e : Z) : Z :=
  if 0 <=? e then 10 ^ Z.of_nat places * Z.pos m * 2 ^ e
  else Float.round_half_even (10 ^ Z.of_nat places * Z.pos m) (2 ^ (- e)).

Definition digits (places : nat) (grouping : bool) (n : Z) : string :=
  let whole := Text.decimal (n / 10 ^ Z.of_nat places) in
  (if grouping then group3 whole else whole) +:+
  (match places with
   | O => ""
   | _ => "." +:+ Text.pad0 places (n mod 10 ^ Z.of_nat places)
   end).

Definition sign (neg : bool) : string := if neg then "-" else "".

(** [format(x, ',.<places>f')] when [grouping], [format(x, '.<places>f')]
    otherwise: the correctly rounded decimal with [places] digits after
    the point. *)
Definition fixed (places : nat) (grouping : bool) (x : Float.float) : string :=
  match x with
  | S754_nan => "nan"
  | S754_infinity neg => sign neg +:+ "inf"
  | S754_zero neg => sign neg +:+ digits places grouping 0
  | S754_finite neg m e => sign neg +:+ digits places grouping (scaled places m e)
  end.

End Format.

(** ** The desktop form: [CurrencyExchangeGUI] *)

(** The symbols are kept as their UTF-8 bytes. Of the widgets the model
    keeps what [convert_currency] reads and writes: the three variables,
    the text and colour of the result label, the rate label, the status
    variable and the dialogs shown; fonts and layout are left out. *)
Definition CURRENCY_SYMBOLS : gmap string string :=
  list_to_map [("GBP", "£"); ("USD", "$"); ("EUR", "€"); ("JPY", "¥");
               ("AUD", "A$"); ("CAD", "C$"); ("CHF", "Fr"); ("CNY", "¥")].

Module Gui.

(** A [messagebox.showerror(title, message)]. *)
Inductive dialog : Type :=
  | InvalidInput            (* "Invalid Input", "Please enter a valid positive number" *)
  | ApiError                (* "API Error", "Failed to fetch exchange rates. ..." *)
  | RateMissing (to : string) (* "Error", "Exchange rate not available for <to>" *)
  | Unexpected (e : exn).   (* "Error", "An error occurred: <str(e)>" *)

(** The variables and labels of the form, and the dialogs shown so far
    (latest first). *)
Record widgets : Type := mk_widgets {
  from_currency_var : string;
  to_currency_var : string;
  amount_var : string;
  result_text : string;
  result_foreground : string;
  rate_text : string;
  status_var : string;
  dialogs : list dialog }.

(** The form as [__init__] builds it. *)
Definition initial : widgets :=
  mk_widgets "GBP" "USD" "100" "Enter amount and click Convert" "gray" ""
    "Ready | API: Connected" [].

Definition show (d : dialog) (g : widgets) : widgets :=
  mk_widgets (from_currency_var g) (to_currency_var g) (amount_var g)
    (result_text g) (result_foreground g) (rate_text g) (status_var g)
    (d :: dialogs g).

Definition set_status (s : string) (g : widgets) : widgets :=
  mk_widgets (from_currency_var g) (to_currency_var g) (amount_var g)
    (result_text g) (result_foreground g) (rate_text g) s (dialogs g).

Definition set_result (result rate : string) (g : widgets) : widgets :=
  mk_widgets (from_currency_var g) (to_currency_var g) (amount_var g)
    result "green" rate (status_var g) (dialogs g).

(** The two comboboxes are read-only over [SUPPORTED_CURRENCIES]: only a
    listed value can be picked. The amount entry takes any text. *)
Definition pick_from (c : string) (g : widgets) : widgets :=
  if bool_decide (c ∈ SUPPORTED_CURRENCIES)
  then mk_widgets c (to_currency_var g) (amount_var g) (result_text g)
         (result_foreground g) (rate_text g) (status_var g) (dialogs g)
  else g.

Definition pick_to (c : string) (g : widgets) : widgets :=
  if bool_decide (c ∈ SUPPORTED_CURRENCIES)
  then mk_widgets (from_currency_var g) c (amount_var g) (result_text g)
         (result_foreground g) (rate_text g) (status_var g) (dialogs g)
  else g.

Definition type_amount (s : string) (g : widgets) : widgets :=
  mk_widgets (from_currency_var g) (to_currency_var g) s (result_text g)
    (result_foreground g) (rate_text g) (status_var g) (dialogs g).

(** [t.strftime('%H:%M:%S')] *)
Definition clock_text (t : Datetime.datetime) : string :=
  Text.pad0 2 (Datetime.hour t) +:+ ":" +:+ Text.pad0 2 (Datetime.minute t)
  +:+ ":" +:+ Text.pad0 2 (Datetime.second t).

Definition result_line (from to : string) (amount converted : Float.float) : string :=
  default "" (CURRENCY_SYMBOLS !! from) +:+ Format.fixed 2 true amount +:+ " "
  +:+ from +:+ " = " +:+ default "" (CURRENCY_SYMBOLS !! to)
  +:+ Format.fixed 2 true converted +:+ " " +:+ to.

Definition rate_line (from to : string) (rate : Float.float) : string :=
  "Exchange Rate: 1 " +:+ from +:+ " = " +:+ Format.fixed 4 false rate
  +:+ " " +:+ to.

(** What follows the amount check in [convert_currency]: the lookup and
    the display; an exception is for the outer [except]. *)
Definition convert_body (env : Env) (g : widgets) (amount : Float.float)
  : Py widgets :=
  let from_curr := from_currency_var g in
  let to_curr := to_currency_var g in
  let g1 := set_status "Converting..." g in
  cache_key ← get_cache_key env;
  rates ← get_exchange_rates env from_curr cache_key;
  match rates with
  | JNull => mret (set_status "Ready | API: Error" (show ApiError g1))
  | _ =>
      listed ← lift (Json.contains rates to_curr);
      if negb listed then mret (show (RateMissing to_curr) g1)
      else
        exchange_rate ← lift (Json.subscript rates to_curr);
        converted_amount ← lift (Json.times amount exchange_rate);
        shown_rate ← lift (Json.as_float exchange_rate);
        let g2 := set_result (result_line from_curr to_curr amount converted_amount)
                    (rate_line from_curr to_curr shown_rate) g1 in
        now ← datetime_now env;
        mret (set_status ("Ready | Last Update: " +:+ clock_text now) g2)
  end.

(** The [Convert] button: [CurrencyExchangeGUI.convert_currency]. *)
Definition convert_currency (env : Env) (g : widgets) (w : World) : widgets * World :=
  match Float.float_of_string (amount_var g) with
  | None => (show InvalidInput g, w)
  | Some amount =>
      if Float.leb amount Float.zero then (show InvalidInput g, w)
      else
        match convert_body env g amount w with
        | (Ret g', w') => (g', w')
        | (Raise e, w') =>
            (set_status "Ready | API: Error"
               (show (Unexpected e) (set_status "Converting..." g)), w')
        end
  end.

End Gui.

(** ** The HTTP service and the form side by side *)

(** What happens to the running program, one thing after the other: an
    HTTP request is served, or the user acts on the form. Both go through
    the one memoised [get_exchange_rates]. *)
Inductive action : Type :=
  | Http (r : request)
  | PickFrom (c : string)
  | PickTo (c : string)
  | TypeAmount (s : string)
  | ClickConvert.

Definition perform (env : Env) (a : action) (st : Gui.widgets * World)
  : Gui.widgets * World :=
  match a with
  | Http r => (st.1, (serve_one env r st.2).2)
  | PickFrom c => (Gui.pick_from c st.1, st.2)
  | PickTo c => (Gui.pick_to c st.1, st.2)
  | TypeAmount s => (Gui.type_amount s st.1, st.2)
  | ClickConvert => Gui.convert_currency env st.1 st.2
  end.

Definition perform_all (env : Env) (actions : list action)
    (st : Gui.widgets * World) : Gui.widgets * World :=
  fold_left (fun st a => perform env a st) actions st.


(** A cache as [lru_cache(maxsize=128)] keeps it: no key twice, at most
    128 entries. *)
Definition cache_ok (w : World) : Prop :=
  NoDup (Lru.keys (Lru.entries (w_cache w))) ∧
  (length (Lru.entries (w_cache w)) ≤ 128)%nat.

(** The number of cache lookups made so far. *)
Definition lookups (w : World) : nat :=
  (Lru.hits (w_cache w) + Lru.misses (w_cache w))%nat.

(** The date and the hour of a clock reading. *)
Definition date_hour (t : Datetime.datetime) : Z * Z * Z * Z :=
  (Datetime.year t, Datetime.month t, Datetime.day t, Datetime.hour t).

(** Between [w] and [w']: every cache miss is one provider call and the
    other way round, and the provider log only grows. *)
Definition accounted (w w' : World) : Prop :=
  (Lru.misses (w_cache w') + length (w_fetches w)
   = Lru.misses (w_cache w) + length (w_fetches w'))%nat ∧
  (length (w_fetches w) ≤ length (w_fetches w'))%nat.


(** The number a run of decimal digits stands for. *)
Definition read_digits (s : string) : Z :=
  Text.digits_to_Z (Text.span_digits s).1.

(** From [w] to [w']: nothing happened, or the rates of one base currency
    (one that [bases] admits) were looked up, with perhaps one more clock
    reading after it. *)
Definition touched (env : Env) (bases : string → Prop) (w w' : World) : Prop :=
  w' = w ∨
  ∃ base res w1,
    bases base ∧ lookup_rates env base w = (res, w1) ∧ (w' = w1 ∨ w' = tick w1).

Definition supported (c : string) : Prop := c ∈ SUPPORTED_CURRENCIES.

(** The reply the provider would give to the next call. *)
Definition next_reply (env : Env) (w : World) (base : string) : provider_reply :=
  provider env (length (w_fetches w)) base.

(** [text] is [whole] with a comma in front of every group of three
    characters, the groups counted from the right. *)
Inductive grouped : string → string → Prop :=
  | grouped_short s : (String.length s ≤ 3)%nat → grouped s s
  | grouped_more s t s' :
      String.length t = 3%nat → s ≠ "" → grouped s s' →
      grouped (s +:+ t) (s' +:+ "," +:+ t).

(** The decimal numeral of a float with [places] digits after the point,
    in words: the numeral [n / 10^places] nearest to [x] (ties to even),
    its whole part written in decimal, with thousands separators when
    [grouping], a point, and the fraction on [places] digits; a minus
    sign for a negative [x], also when it rounds to zero. *)
Definition numeral (places : nat) (grouping : bool) (x : Float.float)
    (text : string) : Prop :=
  let unit := 10 ^ Z.of_nat places in
  let written (neg : bool) (n : Z) :=
    ∃ whole : string,
      (if grouping then grouped (Text.decimal (n / unit)) whole
       else whole = Text.decimal (n / unit)) ∧
      text = (if neg then "-" else "") +:+ whole +:+ "."
             +:+ Text.pad0 places (n mod unit) in
  match x with
  | S754_nan => text = "nan"
  | S754_infinity neg => text = (if neg then "-inf" else "inf")
  | S754_zero neg => written neg 0
  | S754_finite neg m e => ∃ n, nearest_integer unit m e n ∧ written neg n
  end.

(** 2.5 and 1234567.891, bit by bit. *)
Definition two_and_a_half : Float.float := S754_finite false 5629499534213120 (-51).
Definition a_million_odd : Float.float := S754_finite false 5302428716536693 (-32).

(** The answers of [convert_currency] to a request that has passed the
    checks, case by case: what a rate of the table gives, what the
    looked-up value gives, and what the reply of the provider gives when
    the cache has no entry. [stamp] is the timestamp of a 200. *)
Definition answer_to_rate (from to : string) (amount : Float.float)
    (stamp : string) (rate : json) : response :=
  let converted x :=
    Converted (mk_conversion from amount to (Float.round2 (Float.mul amount x))
                 rate stamp) in
  match rate with
  | JFloat x => converted x
  | JInt n =>
      match Float.of_Z n with
      | S754_infinity _ => InternalServerError OverflowError
      | x => converted x
      end
  | JBool true => converted (Float.of_Z 1)
  | JBool false => converted Float.zero
  | JNull | JString _ | JArray _ | JObject _ => InternalServerError TypeError
  end.

Definition answer_to_rates (from to : string) (amount : Float.float)
    (stamp : string) (rates : json) : response :=
  match rates with
  | JNull => RatesUnavailable
  | JObject table =>
      match table !! to with
      | None => RateNotFound to
      | Some rate => answer_to_rate from to amount stamp rate
      end
  | JArray l =>
      if existsb (fun v => Json.is_string v to) l
      then InternalServerError TypeError else RateNotFound to
  | JString s =>
      if Json.is_substring to s
      then InternalServerError TypeError else RateNotFound to
  | JBool _ | JInt _ | JFloat _ => InternalServerError TypeError
  end.

Definition answer_to_reply (from to : string) (amount : Float.float)
    (stamp : string) (reply : provider_reply) : response :=
  match reply with
  | RequestFailed => RatesUnavailable
  | Replied (JObject data) =>
      match data !! "result" with
      | Some (JString result) =>
          if String.eqb result "success" then
            match data !! "conversion_rates" with
            | None => RateNotFound to
            | Some rates => answer_to_rates from to amount stamp rates
            end
          else RatesUnavailable
      | _ => RatesUnavailable
      end
  | Replied _ => InternalServerError AttributeError
  end.

(** Replies that are out of the ordinary: the rates as a list, as a text,
    as a number; a table with an integer, a truth value, a null or a huge
    integer for USD. *)
Definition odd_replies : list provider_reply :=
  [ success_with (JArray [JString "USD"]);
    success_with (JArray [JString "EUR"]);
    success_with (JString "USD,EUR");
    success_with (JString "EUR");
    success_with (JInt 5);
    success {[ "USD" := JInt 2 ]};
    success {[ "USD" := JBool true ]};
    success {[ "USD" := JNull ]};
    success {[ "USD" := JInt (2 ^ 1024) ]};
    Replied (JObject {[ "result" := JString "success" ]});
    Replied (JObject {[ "result" := JString "error" ]});
    Replied (JString "success") ].

(** * Properties *)

(** ** Text and currency codes *)

Lemma upper_char_idem c : Text.upper_char (Text.upper_char c) = Text.upper_char c.
Proof.
  destruct c as [[] [] [] [] [] [] [] []]; reflexivity.
Qed.

Lemma upper_idem s : Text.upper (Text.upper s) = Text.upper s.
Proof.
  induction s as [|c r IH]; simpl; [reflexivity|].
  by rewrite upper_char_idem, IH.
Qed.

Lemma validate_currency_upper s :
  validate_currency (Text.upper s) = true → Text.upper s ∈ SUPPORTED_CURRENCIES.
Proof.
  unfold validate_currency. rewrite upper_idem. apply bool_decide_eq_true_1.
Qed.

Lemma validate_currency_nonempty s : validate_currency s = true → s ≠ "".
Proof. intros H ->. vm_compute in H. discriminate. Qed.

(** ** The hourly key *)

Lemma timedelta_new_within_hour mi s us :
  0 <= mi < 60 → 0 <= s < 60 → 0 <= us < 1000000 →
  Datetime.timedelta_new (mi mod 60) s us
  = Ret (Datetime.mk_timedelta 0 (s + 60 * mi) us).
Proof.
  intros Hmi Hs Hus. unfold Datetime.timedelta_new.
  rewrite (Z.mod_small mi 60) by lia.
  assert (Hq : (us + s * 1000000 + mi * 60000000) / 1000000 = s + 60 * mi)
    by (symmetry; apply (Z.div_unique _ _ _ us); lia).
  assert (Hr : (us + s * 1000000 + mi * 60000000) mod 1000000 = us)
    by (symmetry; apply (Z.mod_unique _ _ (s + 60 * mi)); lia).
  rewrite Hq, Hr.
  rewrite (Z.div_small (s + 60 * mi) 86400), (Z.mod_small (s + 60 * mi) 86400) by lia.
  reflexivity.
Qed.

Lemma normalize_pair_in_range hi lo factor :
  0 <= lo < factor → Datetime.normalize_pair hi lo factor = (hi, lo).
Proof.
  intros H. unfold Datetime.normalize_pair.
  destruct (lo <? 0) eqn:E1; [lia|].
  destruct (factor <=? lo) eqn:E2; [lia|]. reflexivity.
Qed.

Lemma normalize_pair_borrow_minutes mi :
  0 <= mi → Datetime.normalize_pair mi (- (60 * mi)) 60 = (0, 0).
Proof.
  intros H. unfold Datetime.normalize_pair.
  destruct (Z.eq_dec mi 0) as [->|Hne]; [reflexivity|].
  destruct (- (60 * mi) <? 0) eqn:E1; [|lia]. simpl.
  replace (- (60 * mi)) with ((- mi) * 60) by lia.
  rewrite Z.div_mul, Z.mod_mul by lia. f_equal. lia.
Qed.

Lemma normalize_y_m_d_in_range y m d :
  Datetime.MINYEAR <= y <= Datetime.MAXYEAR →
  1 <= d <= Datetime.days_in_month y m →
  Datetime.normalize_y_m_d y m d = Ret (y, m, d).
Proof.
  intros Hy Hd. unfold Datetime.normalize_y_m_d.
  destruct (d <? 1) eqn:E1; [lia|].
  destruct (Datetime.days_in_month y m <? d) eqn:E2; [lia|]. simpl.
  destruct (Datetime.MINYEAR <=? y) eqn:E3; [|lia].
  destruct (y <=? Datetime.MAXYEAR) eqn:E4; [|lia]. reflexivity.
Qed.

Lemma get_cache_key_at_valid now :
  Datetime.valid now →
  get_cache_key_at now = Ret (Datetime.isoformat (top_of_hour now)).
Proof.
  destruct now as [y m d h mi s us].
  intros (Hy & Hm & Hd & Hh & Hmi & Hs & Hus). simpl in *.
  unfold get_cache_key_at. simpl.
  rewrite timedelta_new_within_hour by assumption. simpl.
  unfold Datetime.sub, Datetime.add_datetime_timedelta, Datetime.normalize_datetime.
  simpl.
  replace (us + us * -1) with 0 by lia.
  replace (s + (s + 60 * mi) * -1) with (- (60 * mi)) by lia.
  replace (d + 0 * -1) with d by lia.
  rewrite (normalize_pair_in_range _ 0 1000000) by lia.
  rewrite normalize_pair_borrow_minutes by lia.
  rewrite (normalize_pair_in_range _ 0 60) by lia.
  rewrite (normalize_pair_in_range _ h 24) by lia.
  rewrite normalize_y_m_d_in_range by assumption.
  reflexivity.
Qed.

(** C3. For every valid clock reading, the key that [get_cache_key]
    computes is the ISO text of that reading truncated to the start of
    its hour (minute, second and microsecond zero, hour and date as they
    are). It is computed from the clock reading of the call alone: the
    result does not depend on the cache or on anything else the world
    holds, and the call leaves the world as it was but for the clock
    having been read once. *)
Theorem get_cache_key_top_of_hour env w :
  Datetime.valid (clock env (w_ticks w)) →
  get_cache_key env w
  = (Ret (Datetime.isoformat (top_of_hour (clock env (w_ticks w)))), tick w).
Proof.
  intros Hv. unfold get_cache_key, datetime_now, lift, mbind, Py_bind.
  rewrite get_cache_key_at_valid by assumption. reflexivity.
Qed.

Lemma get_cache_key_top_of_hour_witness :
  get_cache_key env_up initial_world = (Ret ten_o_clock, tick initial_world).
Proof.
  apply (get_cache_key_top_of_hour env_up initial_world).
  unfold Datetime.valid; vm_compute; intuition congruence.
Defined.

(** ** The memoiser *)

Lemma find_None k l : Lru.find k l = None ↔ k ∉ Lru.keys l.
Proof.
  induction l as [|[k' v] r IH]; simpl.
  - split; [intros _; apply not_elem_of_nil | done].
  - rewrite not_elem_of_cons. destruct (decide (k = k')) as [->|Hne].
    + split; [done | intros [? _]; done].
    + destruct (Lru.find k r) as [[x r']|] eqn:E; simpl.
      * split; [done|]. intros [_ Hr]. apply IH in Hr. done.
      * split; [|done]. intros _. split; [done|]. by apply IH.
Qed.

Lemma find_app k l1 l2 :
  Lru.find k (l1 ++ l2)
  = match Lru.find k l1 with
    | Some (v, r) => Some (v, r ++ l2)
    | None => (fun p => (p.1, l1 ++ p.2)) <$> Lru.find k l2
    end.
Proof.
  induction l1 as [|[k' v] r IH]; simpl.
  - destruct (Lru.find k l2) as [[]|]; reflexivity.
  - destruct (decide (k = k')); [reflexivity|].
    rewrite IH. destruct (Lru.find k r) as [[x r']|]; simpl; [reflexivity|].
    destruct (Lru.find k l2) as [[]|]; reflexivity.
Qed.

Lemma find_Some_keys k l v rest :
  Lru.find k l = Some (v, rest) → Lru.keys l ≡ₚ k :: Lru.keys rest.
Proof.
  revert rest. induction l as [|[k' v'] r IH]; intros rest; simpl; [done|].
  destruct (decide (k = k')) as [->|Hne].
  - intros [= <- <-]. reflexivity.
  - destruct (Lru.find k r) as [[x r']|] eqn:E; simpl; [|done].
    intros [= <- <-]. simpl. rewrite (IH r' eq_refl). apply Permutation_swap.
Qed.

Lemma pinned_find k v l : pinned k v l → ∃ rest, Lru.find k l = Some (v, rest).
Proof.
  intros (pre & post & -> & _ & Hk & _).
  rewrite find_app. apply find_None in Hk. rewrite Hk. simpl.
  rewrite decide_True by done. simpl. eauto.
Qed.

Lemma pinned_front k v rest : pinned k v ((k, v) :: rest).
Proof.
  exists [], rest. split; [done|]. split; [constructor|].
  split; [apply not_elem_of_nil | constructor].
Qed.

(** Entries above a pinned one are distinct keys of one bucket. *)
Lemma pinned_prefix_short (k : cache_key) (ks : list cache_key) :
  k.1 ∈ SUPPORTED_CURRENCIES → NoDup ks → k ∉ ks →
  Forall (fun k' => k'.1 ∈ SUPPORTED_CURRENCIES ∧ k'.2 = k.2) ks →
  (length ks < 8)%nat.
Proof.
  intros Hk Hnd Hnotin Hall.
  assert (Hsub : k :: ks ⊆+ (fun c => (c, k.2)) <$> SUPPORTED_CURRENCIES).
  { apply NoDup_submseteq; [by constructor|].
    intros x Hin. apply list_elem_of_fmap. exists x.1.
    apply elem_of_cons in Hin as [Heq|Hin].
    - subst x. by destruct k.
    - rewrite Forall_forall in Hall. destruct (Hall _ Hin) as [Hc Hb].
      destruct x; simpl in *. by subst. }
  apply submseteq_length in Hsub. rewrite length_fmap in Hsub.
  simpl in Hsub. lia.
Qed.

Lemma pinned_hit_other k v l k' v' rest :
  pinned k v l → k' ≠ k → k'.1 ∈ SUPPORTED_CURRENCIES → k'.2 = k.2 →
  Lru.find k' l = Some (v', rest) → pinned k v ((k', v') :: rest).
Proof.
  intros (pre & post & -> & Hnd & Hk & Hall) Hne Hsup Hb.
  rewrite find_app.
  destruct (Lru.find k' pre) as [[x r]|] eqn:E.
  - intros [= <- <-]. apply find_Some_keys in E.
    exists ((k', x) :: r), post. split; [done|].
    change (Lru.keys ((k', x) :: r)) with (k' :: Lru.keys r).
    rewrite <- E. auto.
  - simpl. rewrite decide_False by done.
    destruct (Lru.find k' post) as [[x r]|] eqn:E'; simpl; [|done].
    intros [= <- <-].
    exists ((k', x) :: pre), r. split; [done|]. simpl.
    apply find_None in E. split; [by constructor|].
    split; [|by constructor].
    apply not_elem_of_cons. split; [congruence | done].
Qed.

Lemma pinned_store_other k v l k' v' :
  pinned k v l → k.1 ∈ SUPPORTED_CURRENCIES →
  k' ≠ k → k'.1 ∈ SUPPORTED_CURRENCIES → k'.2 = k.2 →
  Lru.find k' l = None → pinned k v (Lru.store 128 k' v' l).
Proof.
  intros (pre & post & -> & Hnd & Hk & Hall) Hksup Hne Hsup Hb Hmiss.
  assert (Hshort := pinned_prefix_short k _ Hksup Hnd Hk Hall).
  unfold Lru.keys in Hshort. rewrite length_fmap in Hshort.
  apply find_None in Hmiss. unfold Lru.keys in Hmiss.
  rewrite fmap_app, not_elem_of_app in Hmiss. destruct Hmiss as [Hpre _].
  assert (Hinv : ∀ post', pinned k v ((k', v') :: pre ++ (k, v) :: post')).
  { intros post'. exists ((k', v') :: pre), post'. split; [done|]. simpl.
    split; [by constructor|]. split; [|by constructor].
    apply not_elem_of_cons. split; [congruence | done]. }
  unfold Lru.store. destruct (decide _) as [Hfull|]; [|apply Hinv].
  rewrite length_app in Hfull. simpl in Hfull.
  destruct post as [|e post]; simpl in Hfull; [lia|].
  rewrite removelast_app by done.
  change (removelast ((k, v) :: e :: post)) with ((k, v) :: removelast (e :: post)).
  apply Hinv.
Qed.

Lemma get_exchange_rates_eq env base key w :
  let k := (base, key) in
  let c := w_cache w in
  get_exchange_rates env base key w
  = match Lru.find k (Lru.entries c) with
    | Some (v, rest) =>
        (Ret v, set_cache w (Lru.mk_cache ((k, v) :: rest)
                               (S (Lru.hits c)) (Lru.misses c)))
    | None =>
        let reply := provider env (length (w_fetches w)) base in
        (rates_of_reply reply,
         mk_world
           (Lru.mk_cache
              match rates_of_reply reply with
              | Ret v => Lru.store 128 k v (Lru.entries c)
              | Raise _ => Lru.entries c
              end
              (Lru.hits c) (S (Lru.misses c)))
           (w_ticks w) ((k, reply) :: w_fetches w))
    end.
Proof.
  intros k c. unfold get_exchange_rates, lru_cache. fold k. fold c.
  destruct (Lru.find k (Lru.entries c)) as [[v rest]|] eqn:E; [reflexivity|].
  unfold fetch_exchange_rates. simpl.
  destruct (rates_of_reply _) as [v|e]; [|reflexivity].
  rewrite E. reflexivity.
Qed.

(** What one memoised call does to the clock, the provider log and the cache. *)
Lemma get_exchange_rates_step env base key w r w' :
  get_exchange_rates env base key w = (r, w') →
  w_ticks w' = w_ticks w ∧
  (w_fetches w' = w_fetches w ∨
   ∃ reply, w_fetches w' = ((base, key), reply) :: w_fetches w ∧
            r = rates_of_reply reply) ∧
  (∀ v, r = Ret v → pinned (base, key) v (Lru.entries (w_cache w'))) ∧
  (∀ v, pinned (base, key) v (Lru.entries (w_cache w)) →
        r = Ret v ∧ w_fetches w' = w_fetches w) ∧
  (∀ k v, pinned k v (Lru.entries (w_cache w)) →
          k.1 ∈ SUPPORTED_CURRENCIES → base ∈ SUPPORTED_CURRENCIES → key = k.2 →
          pinned k v (Lru.entries (w_cache w'))).
Proof.
  rewrite get_exchange_rates_eq. cbv zeta.
  destruct (Lru.find _ _) as [[v0 rest]|] eqn:E.
  - intros [= <- <-]. simpl. split; [done|]. split; [by left|].
    split; [intros v [= <-]; apply pinned_front|]. split.
    + intros v Hp. apply pinned_find in Hp as [rest' Hp].
      rewrite E in Hp. by injection Hp as -> _.
    + intros k v Hp Hk Hb ->.
      destruct (decide ((base, k.2) = k)) as [Heq|Hne].
      * pose proof Hp as Hp'. apply pinned_find in Hp' as [rest' Hf].
        rewrite Heq in E. rewrite E in Hf. injection Hf as -> _.
        rewrite Heq. apply pinned_front.
      * by apply (pinned_hit_other k v (Lru.entries (w_cache w)) (base, k.2) v0 rest).
  - intros [= <- <-]. simpl. split; [done|]. split; [right; eauto|].
    split; [|split].
    + intros v Hv. rewrite Hv. apply pinned_front.
    + intros v Hp. apply pinned_find in Hp as [rest' Hp]. congruence.
    + intros k v Hp Hk Hb ->.
      destruct (rates_of_reply _) as [v'|e]; [|done].
      destruct (decide ((base, k.2) = k)) as [Heq|Hne].
      * apply pinned_find in Hp as [rest' Hf]. congruence.
      * by apply pinned_store_other.
Qed.

Lemma lookup_rates_in_bucket env b base w :
  in_bucket env b w →
  lookup_rates env base w = get_exchange_rates env base b (tick w).
Proof.
  intros Hb. unfold lookup_rates, get_cache_key, datetime_now, lift, mbind, Py_bind.
  rewrite (Hb (w_ticks w)) by done. reflexivity.
Qed.

Lemma in_bucket_later env b w w' :
  (w_ticks w ≤ w_ticks w')%nat → in_bucket env b w → in_bucket env b w'.
Proof. intros Hle Hb n Hn. apply Hb. lia. Qed.

(** ** The handlers, check by check *)

Lemma convert_currency_missing env args w :
  all_present args = false →
  convert_currency env args w = (MissingParameters, w).
Proof.
  unfold all_present, arg_from, arg_to, arg_amount. intros H.
  apply negb_false_iff in H.
  unfold convert_currency, handler. cbv zeta. rewrite H. reflexivity.
Qed.

Lemma convert_currency_bad_from env args w :
  all_present args = true → validate_currency (arg_from args) = false →
  convert_currency env args w = (UnsupportedCurrency (arg_from args), w).
Proof.
  unfold all_present, arg_from, arg_to, arg_amount. intros H Hf.
  apply negb_true_iff in H.
  unfold convert_currency, handler. cbv zeta. rewrite H, Hf. reflexivity.
Qed.

Lemma convert_currency_bad_to env args w :
  all_present args = true → validate_currency (arg_from args) = true →
  validate_currency (arg_to args) = false →
  convert_currency env args w = (UnsupportedCurrency (arg_to args), w).
Proof.
  unfold all_present, arg_from, arg_to, arg_amount. intros H Hf Ht.
  apply negb_true_iff in H.
  unfold convert_currency, handler. cbv zeta. rewrite H, Hf, Ht. reflexivity.
Qed.

Lemma convert_currency_bad_amount env args w :
  all_present args = true → validate_currency (arg_from args) = true →
  validate_currency (arg_to args) = true →
  (Float.float_of_string (arg_amount args) = None ∨
   ∃ x, Float.float_of_string (arg_amount args) = Some x ∧
        Float.leb x Float.zero = true) →
  convert_currency env args w = (InvalidAmount, w).
Proof.
  unfold all_present, arg_from, arg_to, arg_amount. intros H Hf Ht Ha.
  apply negb_true_iff in H.
  unfold convert_currency, handler. cbv zeta. rewrite H, Hf, Ht. simpl.
  destruct Ha as [->|(x & -> & ->)]; reflexivity.
Qed.

Lemma convert_currency_checked env args w amount :
  all_present args = true → validate_currency (arg_from args) = true →
  validate_currency (arg_to args) = true →
  Float.float_of_string (arg_amount args) = Some amount →
  Float.leb amount Float.zero = false →
  convert_currency env args w
  = convert_answer env (arg_from args) (arg_to args) amount
      (lookup_rates env (arg_from args) w).
Proof.
  unfold all_present, arg_from, arg_to, arg_amount. intros H Hf Ht Ha Hpos.
  apply negb_true_iff in H.
  unfold convert_currency, handler. cbv zeta. rewrite H, Hf, Ht, Ha, Hpos. simpl.
  unfold lookup_rates, convert_answer, mbind, Py_bind.
  destruct (get_cache_key env w) as [[key|e] w0]; [|reflexivity].
  destruct (get_exchange_rates env _ key w0) as [[rates|e] w1]; [|reflexivity].
  destruct rates; unfold lift; cbv beta iota; try reflexivity;
    (destruct (Json.contains _ _) as [[]|]; [|reflexivity..]); simpl;
    try reflexivity.
  destruct (m !! _) as [rate|]; [|reflexivity]. simpl.
  destruct (Json.times _ _) as [p|]; reflexivity.
Qed.

Lemma get_rates_bad_base env args w :
  validate_currency (arg_base args) = false →
  get_rates env args w = (UnsupportedCurrency (arg_base args), w).
Proof.
  unfold arg_base. intros Hb.
  unfold get_rates, handler. cbv zeta. rewrite Hb. reflexivity.
Qed.

Lemma get_rates_checked env args w :
  validate_currency (arg_base args) = true →
  get_rates env args w
  = rates_answer env (arg_base args) (lookup_rates env (arg_base args) w).
Proof.
  unfold arg_base. intros Hb.
  unfold get_rates, handler. cbv zeta. rewrite Hb. simpl.
  unfold lookup_rates, rates_answer, mbind, Py_bind.
  destruct (get_cache_key env w) as [[key|e] w0]; [|reflexivity].
  destruct (get_exchange_rates env _ key w0) as [[rates|e] w1]; [|reflexivity].
  destruct rates; reflexivity.
Qed.

Lemma convert_answer_not_400 env from to amount looked_up :
  status_code (convert_answer env from to amount looked_up).1 ≠ 400.
Proof.
  destruct looked_up as [[rates|e] w1]; [|done].
  unfold convert_answer. destruct rates; cbv beta iota; try done;
    (destruct (Json.contains _ _) as [[]|]; [|done..]);
    (destruct (_ ≫= _) as [[rate p]|]; done).
Qed.

Lemma rates_answer_not_400 env base looked_up :
  status_code (rates_answer env base looked_up).1 ≠ 400.
Proof. destruct looked_up as [[rates|e] w1]; [destruct rates|]; simpl; done. Qed.

(** Either a check stops [convert_currency] with a 400 and the world
    untouched, or every check passes and the answer comes from the lookup. *)
Lemma convert_currency_inv env args w :
  (convert_currency env args w).2 = w ∧
  status_code (convert_currency env args w).1 = 400 ∨
  ∃ amount,
    all_present args = true ∧ validate_currency (arg_from args) = true ∧
    validate_currency (arg_to args) = true ∧
    Float.float_of_string (arg_amount args) = Some amount ∧
    Float.leb amount Float.zero = false ∧
    convert_currency env args w
    = convert_answer env (arg_from args) (arg_to args) amount
        (lookup_rates env (arg_from args) w).
Proof.
  destruct (all_present args) eqn:Hp;
    [|left; by rewrite convert_currency_missing].
  destruct (validate_currency (arg_from args)) eqn:Hf;
    [|left; by rewrite convert_currency_bad_from].
  destruct (validate_currency (arg_to args)) eqn:Ht;
    [|left; by rewrite convert_currency_bad_to].
  destruct (Float.float_of_string (arg_amount args)) as [x|] eqn:Ha;
    [|left; rewrite convert_currency_bad_amount; auto].
  destruct (Float.leb x Float.zero) eqn:Hx;
    [left; rewrite convert_currency_bad_amount; eauto|].
  right. exists x. repeat (split; [done|]).
  by apply convert_currency_checked.
Qed.

Lemma get_rates_inv env args w :
  (get_rates env args w).2 = w ∧ status_code (get_rates env args w).1 = 400 ∨
  validate_currency (arg_base args) = true ∧
  get_rates env args w
  = rates_answer env (arg_base args) (lookup_rates env (arg_base args) w).
Proof.
  destruct (validate_currency (arg_base args)) eqn:Hb;
    [|left; by rewrite get_rates_bad_base].
  right. split; [done|]. by apply get_rates_checked.
Qed.

Lemma convert_answer_world env from to amount res w1 :
  (convert_answer env from to amount (res, w1)).2 = w1 ∨
  (convert_answer env from to amount (res, w1)).2 = tick w1.
Proof.
  destruct res as [rates|e]; [|auto].
  unfold convert_answer. destruct rates; cbv beta iota; auto;
    (destruct (Json.contains _ _) as [[]|]; auto);
    (destruct (_ ≫= _) as [[rate p]|]; auto).
Qed.

Lemma rates_answer_world env base res w1 :
  (rates_answer env base (res, w1)).2 = w1 ∨
  (rates_answer env base (res, w1)).2 = tick w1.
Proof. destruct res as [rates|e]; [destruct rates|]; simpl; auto. Qed.

Lemma convert_answer_table env from to amount table w1 :
  convert_answer env from to amount (Ret (JObject table), w1)
  = match table !! to with
    | None => (RateNotFound to, w1)
    | Some rate =>
        match Json.as_float rate with
        | Raise e => (InternalServerError e, w1)
        | Ret x =>
            (Converted (mk_conversion from amount to
                          (Float.round2 (Float.mul amount x)) rate
                          (Datetime.isoformat (clock env (w_ticks w1)))),
             tick w1)
        end
    end.
Proof.
  unfold convert_answer, Json.contains, Json.subscript, Json.times.
  destruct (table !! to) as [rate|] eqn:E.
  - rewrite bool_decide_eq_true_2 by eauto. simpl.
    destruct (Json.as_float rate); reflexivity.
  - rewrite bool_decide_eq_false_2 by (by intros [? ?]). reflexivity.
Qed.

(** A conversion result comes from a table that has the target code with
    a number for it. *)
Lemma convert_answer_Converted env from to amount res w1 c :
  (convert_answer env from to amount (res, w1)).1 = Converted c →
  ∃ table rate x,
    res = Ret (JObject table) ∧ table !! to = Some rate ∧
    Json.as_float rate = Ret x ∧
    convert_answer env from to amount (res, w1)
    = (Converted (mk_conversion from amount to
                    (Float.round2 (Float.mul amount x)) rate
                    (Datetime.isoformat (clock env (w_ticks w1)))),
       tick w1).
Proof.
  destruct res as [rates|e]; [|done].
  destruct rates as [|?|?|?|s|l|table];
    try (unfold convert_answer; simpl; done).
  - unfold convert_answer. simpl. destruct (Json.is_substring to s); done.
  - unfold convert_answer. simpl. destruct (existsb _ l); done.
  - rewrite convert_answer_table.
    destruct (table !! to) as [rate|] eqn:E; [|done].
    destruct (Json.as_float rate) as [x|] eqn:Ex; [|done].
    intros _. by exists table, rate, x.
Qed.



(** A request either leaves the world alone or looks up the rates of one
    supported currency, and may then read the clock for its timestamp. *)
Lemma serve_one_cases env r w :
  (serve_one env r w).2 = w ∨
  ∃ base res w1,
    base ∈ SUPPORTED_CURRENCIES ∧ lookup_rates env base w = (res, w1) ∧
    ((serve_one env r w).2 = w1 ∨ (serve_one env r w).2 = tick w1).
Proof.
  destruct r as [args|args]; simpl.
  - destruct (convert_currency_inv env args w) as [[Hw _]|(x & _ & Hf & _ & _ & _ & Heq)];
      [by left|].
    right. destruct (lookup_rates env (arg_from args) w) as [res w1] eqn:E.
    exists (arg_from args), res, w1.
    split; [by apply validate_currency_upper|]. split; [done|].
    rewrite Heq. apply convert_answer_world.
  - destruct (get_rates_inv env args w) as [[Hw _]|[Hb Heq]]; [by left|].
    right. destruct (lookup_rates env (arg_base args) w) as [res w1] eqn:E.
    exists (arg_base args), res, w1.
    split; [by apply validate_currency_upper|]. split; [done|].
    rewrite Heq. apply rates_answer_world.
Qed.

Lemma rates_of_reply_returned reply :
  returned reply = true → ∃ v, rates_of_reply reply = Ret v.
Proof.
  unfold returned. destruct (rates_of_reply reply); [eauto|done].
Qed.

Lemma fetches_for_app k l1 l2 :
  fetches_for k (l1 ++ l2) = fetches_for k l1 ++ fetches_for k l2.
Proof. unfold fetches_for. by rewrite filter_app, fmap_app. Qed.

Lemma fetches_for_cons k k' reply l :
  fetches_for k ((k', reply) :: l)
  = if decide (k' = k) then reply :: fetches_for k l else fetches_for k l.
Proof.
  unfold fetches_for. rewrite filter_cons. simpl.
  destruct (decide (k' = k)); reflexivity.
Qed.

(** One request within bucket [b]: the clock only advances; at most one
    provider call is made, for a supported currency in [b], and unless it
    made the call raise its result is then held by the cache; entries
    pinned in [b] stay pinned and are not fetched again. *)
Lemma serve_one_step env b r w :
  in_bucket env b w →
  let w' := (serve_one env r w).2 in
  (w_ticks w ≤ w_ticks w')%nat ∧
  (w_fetches w' = w_fetches w ∨
   ∃ base reply,
     base ∈ SUPPORTED_CURRENCIES ∧
     w_fetches w' = ((base, b), reply) :: w_fetches w ∧
     (returned reply = true →
      ∃ v, pinned (base, b) v (Lru.entries (w_cache w')))) ∧
  (∀ k v, pinned k v (Lru.entries (w_cache w)) →
          k.1 ∈ SUPPORTED_CURRENCIES → k.2 = b →
          pinned k v (Lru.entries (w_cache w')) ∧
          fetches_for k (w_fetches w') = fetches_for k (w_fetches w)).
Proof.
  intros Hb w'. subst w'.
  destruct (serve_one_cases env r w) as [->|(base & res & w1 & Hsup & Hl & Hw')].
  { split; [done|]. split; [by left|]. by intros k v Hp _ _. }
  rewrite (lookup_rates_in_bucket env b) in Hl by done.
  apply get_exchange_rates_step in Hl
    as (Hticks & Hlog & Hpin & Hhit & Hkeep). simpl in *.
  assert (Hc : w_cache (serve_one env r w).2 = w_cache w1
               ∧ w_fetches (serve_one env r w).2 = w_fetches w1
               ∧ (w_ticks w ≤ w_ticks (serve_one env r w).2)%nat).
  { destruct Hw' as [->| ->]; simpl; repeat split; lia. }
  destruct Hc as (-> & -> & Hle). split; [done|]. split.
  - destruct Hlog as [->|(reply & -> & Hr)]; [by left|]. right.
    exists base, reply. split; [done|]. split; [done|].
    intros Hret. apply rates_of_reply_returned in Hret as [v Hv].
    exists v. apply Hpin. congruence.
  - intros k v Hp Hk Hkb. split; [by apply Hkeep|].
    destruct Hlog as [->|(reply & Hlog & Hr)]; [done|].
    rewrite Hlog, fetches_for_cons.
    destruct (decide ((base, b) = k)) as [<-|]; [|done].
    destruct (Hhit v Hp) as [_ Hsame]. rewrite Hlog in Hsame.
    exfalso. apply (f_equal length) in Hsame. simpl in Hsame. lia.
Qed.

Lemma serve_cons env r rest w :
  serve env (r :: rest) w
  = ((serve_one env r w).1 :: (serve env rest (serve_one env r w).2).1,
     (serve env rest (serve_one env r w).2).2).
Proof.
  simpl. destruct (serve_one env r w) as [resp w1]. simpl.
  destruct (serve env rest w1) as [resps w2]. reflexivity.
Qed.

(** An entry pinned in bucket [b] survives any run of requests within
    [b], and the run makes no provider call for its key. *)
Lemma serve_keeps_pinned env b rs : ∀ w k v,
  in_bucket env b w →
  pinned k v (Lru.entries (w_cache w)) →
  k.1 ∈ SUPPORTED_CURRENCIES → k.2 = b →
  let w' := (serve env rs w).2 in
  in_bucket env b w' ∧
  pinned k v (Lru.entries (w_cache w')) ∧
  fetches_for k (w_fetches w') = fetches_for k (w_fetches w).
Proof.
  induction rs as [|r rest IH]; intros w k v Hb Hp Hk Hkb; cbv zeta.
  { done. }
  rewrite serve_cons. simpl.
  destruct (serve_one_step env b r w Hb) as (Hle & _ & Hkeep).
  destruct (Hkeep k v Hp Hk Hkb) as [Hp1 Hf1].
  assert (Hb1 := in_bucket_later env b _ _ Hle Hb).
  destruct (IH _ k v Hb1 Hp1 Hk Hkb) as (Hb2 & Hp2 & Hf2).
  split; [done|]. split; [done|]. congruence.
Qed.

(** ** The cache within one bucket *)

(** C2, as the code has it. Take any run of [convert] and [rates]
    requests whose clock readings all fall in one hour bucket [b], and any
    base currency. Among the provider calls the run makes for
    [(base, b)], every call but the latest one made [get_exchange_rates]
    raise (the reply was not a JSON object, the request ended in a 500 and
    nothing was stored); so at most one call for the pair returned a rate
    table or the failure value, and once a call has returned, all later
    requests of the run are served from the cache. *)
Theorem one_returned_fetch_per_bucket env b rs base : ∀ w,
  in_bucket env b w →
  ∃ new,
    w_fetches (serve env rs w).2 = new ++ w_fetches w ∧
    match fetches_for (base, b) new with
    | [] => True
    | _ :: older => Forall (fun r => returned r = false) older
    end ∧
    (length (filter (fun r => returned r = true) (fetches_for (base, b) new)) ≤ 1)%nat.
Proof.
  assert (Hcount : ∀ l : list provider_reply,
             match l with
             | [] => True
             | _ :: older => Forall (fun r => returned r = false) older
             end →
             (length (filter (fun r => returned r = true) l) ≤ 1)%nat).
  { intros [|x older] H; simpl; [lia|].
    assert (filter (fun r => returned r = true) older = []) as Hnil.
    { induction H as [|y l Hy _ IH]; [done|].
      rewrite filter_cons. destruct (decide _); [congruence | done]. }
    rewrite filter_cons, Hnil. destruct (decide _); simpl; lia. }
  cut (∀ w, in_bucket env b w →
         ∃ new,
           w_fetches (serve env rs w).2 = new ++ w_fetches w ∧
           match fetches_for (base, b) new with
           | [] => True
           | _ :: older => Forall (fun r => returned r = false) older
           end).
  { intros H w Hb. destruct (H w Hb) as (new & Hnew & Hshape).
    exists new. auto. }
  induction rs as [|r rest IH]; intros w Hb.
  { exists []. done. }
  rewrite serve_cons. simpl.
  destruct (serve_one_step env b r w Hb) as (Hle & Hlog & _).
  set (w1 := (serve_one env r w).2) in *.
  assert (Hb1 := in_bucket_later env b _ _ Hle Hb).
  destruct (IH w1 Hb1) as (new2 & Hnew2 & Hshape2).
  destruct Hlog as [Hsame|(base' & reply & Hsup & Hcons & Hret)].
  { exists new2. by rewrite Hnew2, Hsame. }
  exists (new2 ++ [((base', b), reply)]).
  split; [by rewrite Hnew2, Hcons, <- app_assoc|].
  rewrite fetches_for_app, fetches_for_cons.
  destruct (decide ((base', b) = (base, b))) as [Heq|Hne];
    [|by rewrite app_nil_r].
  injection Heq as ->.
  change (fetches_for (base, b) []) with (@nil provider_reply).
  destruct (returned reply) eqn:Hr.
  - destruct (Hret eq_refl) as [v Hp].
    destruct (serve_keeps_pinned env b rest w1 (base, b) v Hb1 Hp Hsup eq_refl)
      as (_ & _ & Hnone).
    rewrite Hnew2, fetches_for_app in Hnone.
    assert (fetches_for (base, b) new2 = []) as ->.
    { apply (f_equal length) in Hnone. rewrite length_app in Hnone.
      destruct (fetches_for (base, b) new2); [done | simpl in Hnone; lia]. }
    simpl. constructor.
  - destruct (fetches_for (base, b) new2) as [|x older]; simpl.
    + constructor.
    + apply Forall_app. split; [done|]. by constructor.
Qed.


Lemma lookup_rates_ticks env base w v w1 :
  lookup_rates env base w = (Ret v, w1) → w_ticks w1 = S (w_ticks w).
Proof.
  unfold lookup_rates, get_cache_key, datetime_now, lift, mbind, Py_bind.
  destruct (get_cache_key_at _) as [key|e]; [|done].
  intros H. apply get_exchange_rates_step in H as [-> _]. reflexivity.
Qed.





(** C9, as the code has it. Every successful conversion carries the
    time at which its response was built: the handler reads the clock once
    for the cache key, looks the rates up, and reads the clock a second
    time for [timestamp]. The moment the rate table was fetched is not
    recorded anywhere. *)
Theorem timestamp_is_response_time env args w c :
  (convert_currency env args w).1 = Converted c →
  w_ticks (convert_currency env args w).2 = S (S (w_ticks w)) ∧
  timestamp c = Datetime.isoformat (clock env (S (w_ticks w))).
Proof.
  intros H.
  destruct (convert_currency_inv env args w)
    as [[_ H400]|(x & _ & _ & _ & _ & _ & Heq)].
  { rewrite H in H400. done. }
  rewrite Heq in H |- *.
  destruct (lookup_rates env (arg_from args) w) as [res w1] eqn:E.
  destruct (convert_answer_Converted _ _ _ _ _ _ _ H)
    as (table & rate & y & -> & _ & _ & Hc).
  rewrite Hc in H |- *. injection H as <-.
  apply lookup_rates_ticks in E. simpl. by rewrite E.
Qed.

(** ** Validation *)

(** C4, as the code has it. [convert] checks, in this order and stopping
    at the first failure: that the three parameters are present and not
    empty (else [MissingParameters]), the source currency code, the target
    currency code (each giving [UnsupportedCurrency] with that code), and
    the amount ([InvalidAmount] when it does not parse or is at most
    zero). A failed check returns with the world untouched: no clock
    reading, no cache lookup (hit and miss counters as they were), no
    provider call. *)
Theorem convert_validation_order env args w :
  (all_present args = false →
   convert_currency env args w = (MissingParameters, w)) ∧
  (all_present args = true → validate_currency (arg_from args) = false →
   convert_currency env args w = (UnsupportedCurrency (arg_from args), w)) ∧
  (all_present args = true → validate_currency (arg_from args) = true →
   validate_currency (arg_to args) = false →
   convert_currency env args w = (UnsupportedCurrency (arg_to args), w)) ∧
  (all_present args = true → validate_currency (arg_from args) = true →
   validate_currency (arg_to args) = true →
   (Float.float_of_string (arg_amount args) = None ∨
    ∃ x, Float.float_of_string (arg_amount args) = Some x ∧
         Float.leb x Float.zero = true) →
   convert_currency env args w = (InvalidAmount, w)).
Proof.
  split; [apply convert_currency_missing|].
  split; [apply convert_currency_bad_from|].
  split; [apply convert_currency_bad_to | apply convert_currency_bad_amount].
Qed.

Lemma leb_zero_ltb x :
  x ≠ Float.nan → Float.leb x Float.zero = negb (Float.ltb Float.zero x).
Proof. destruct x as [[]|[]| |[] m e]; intros H; done. Qed.

Lemma ltb_zero_not_nan x : Float.ltb Float.zero x = true → x ≠ Float.nan.
Proof. by intros H ->. Qed.

(** C5, as the code has it. With the three parameters present and both
    currency codes supported, and for an amount text that does not parse
    to NaN: [convert] answers [InvalidAmount] exactly when the text does
    not parse as a number or the parsed value is not strictly positive;
    and every strictly positive amount passes validation (the answer is
    no 400). *)
Theorem invalid_amount_iff env args w :
  all_present args = true →
  validate_currency (arg_from args) = true →
  validate_currency (arg_to args) = true →
  Float.float_of_string (arg_amount args) ≠ Some Float.nan →
  ((convert_currency env args w).1 = InvalidAmount ↔
   (Float.float_of_string (arg_amount args) = None ∨
    ∃ x, Float.float_of_string (arg_amount args) = Some x ∧
         Float.ltb Float.zero x = false)) ∧
  (∀ x, Float.float_of_string (arg_amount args) = Some x →
        Float.ltb Float.zero x = true →
        status_code (convert_currency env args w).1 ≠ 400).
Proof.
  intros Hp Hf Ht Hnan.
  assert (Hpos : ∀ x, Float.float_of_string (arg_amount args) = Some x →
                 Float.ltb Float.zero x = true →
                 status_code (convert_currency env args w).1 ≠ 400).
  { intros x Ha Hx.
    rewrite (convert_currency_checked env args w x); try done.
    - apply convert_answer_not_400.
    - rewrite leb_zero_ltb by by apply ltb_zero_not_nan. by rewrite Hx. }
  split; [|done]. split.
  - intros Hinv.
    destruct (Float.float_of_string (arg_amount args)) as [x|] eqn:Ha; [|by left].
    right. exists x. split; [done|].
    destruct (Float.ltb Float.zero x) eqn:Hx; [|done].
    specialize (Hpos x eq_refl Hx). rewrite Hinv in Hpos. done.
  - intros Hbad. rewrite convert_currency_bad_amount; try done.
    destruct Hbad as [Hnone|(x & Ha & Hx)]; [by left|].
    right. exists x. split; [done|].
    rewrite leb_zero_ltb by congruence. by rewrite Hx.
Qed.

(** ** Conversion and listing *)

Lemma round_half_even_nearest p q :
  0 <= p → 0 < q →
  2 * Z.abs (p - Float.round_half_even p q * q) <= q ∧
  (2 * Z.abs (p - Float.round_half_even p q * q) = q →
   Z.even (Float.round_half_even p q) = true).
Proof.
  intros Hp Hq. unfold Float.round_half_even.
  pose proof (Z.div_mod p q ltac:(lia)) as Hdm.
  pose proof (Z.mod_pos_bound p q Hq) as Hr.
  destruct (Z.compare_spec (2 * (p mod q)) q) as [He|Hl|Hg].
  - destruct (Z.even (p / q)) eqn:Hev.
    + split; [lia | done].
    + split; [lia|]. intros _. rewrite Z.even_add, Hev. reflexivity.
  - split; lia.
  - split; lia.
Qed.

Lemma nearest_integer_scaled scale m e :
  0 < scale →
  nearest_integer scale m e
    (if 0 <=? e then scale * Z.pos m * 2 ^ e
     else Float.round_half_even (scale * Z.pos m) (2 ^ (- e))).
Proof.
  intros Hs. unfold nearest_integer. cbv zeta.
  destruct (Z.leb_spec 0 e) as [He|He].
  - rewrite (Z.max_l e 0), (Z.max_r (- e) 0) by lia.
    change (2 ^ 0) with 1. split; lia.
  - rewrite (Z.max_r e 0), (Z.max_l (- e) 0) by lia.
    change (2 ^ 0) with 1. rewrite Z.mul_1_r.
    apply round_half_even_nearest; [lia|].
    apply Z.pow_pos_nonneg; lia.
Qed.

(** [round(x, 2)] rounds to two decimal places. *)
Lemma round2_two_places x : rounded_to_two_places x (Float.round2 x).
Proof.
  destruct x as [s|s| |s m e]; try reflexivity.
  simpl. eexists. split; [by apply (nearest_integer_scaled 100)|].
  reflexivity.
Qed.

(** C6, as the code has it. For a valid conversion (both codes supported,
    a strictly positive amount, a rate table from the cache lookup that
    has the target code): when the value of the table is a JSON number
    that a float can hold, [convert] answers 200, the target amount is
    the product of the amount and the rate as floats, rounded to two
    decimal places (the nearest two-place decimal, ties to even, as a
    float), and the exchange rate is the value of the table as it is,
    unrounded; when it is anything else, the product raises and
    [convert] answers 500. *)
Theorem convert_rounds_amount_only env args w amount table rate w1 :
  validate_currency (arg_from args) = true →
  validate_currency (arg_to args) = true →
  Float.float_of_string (arg_amount args) = Some amount →
  Float.ltb Float.zero amount = true →
  lookup_rates env (arg_from args) w = (Ret (JObject table), w1) →
  table !! arg_to args = Some rate →
  (∀ x, Json.as_float rate = Ret x →
     ∃ c,
       convert_currency env args w = (Converted c, tick w1) ∧
       from_currency c = arg_from args ∧ from_amount c = amount ∧
       to_currency c = arg_to args ∧
       exchange_rate c = rate ∧
       to_amount c = Float.round2 (Float.mul amount x) ∧
       rounded_to_two_places (Float.mul amount x) (to_amount c) ∧
       timestamp c = Datetime.isoformat (clock env (w_ticks w1))) ∧
  (∀ e, Json.as_float rate = Raise e →
     convert_currency env args w = (InternalServerError e, w1)).
Proof.
  intros Hf Ht Ha Hx Hl Hrate.
  assert (Heq : convert_currency env args w
                = convert_answer env (arg_from args) (arg_to args) amount
                    (Ret (JObject table), w1)).
  { rewrite <- Hl. apply convert_currency_checked; try done.
    - unfold all_present, is_empty.
      rewrite !bool_decide_eq_false_2; [done | | |].
      + intros He. rewrite He in Ha. vm_compute in Ha. done.
      + by apply validate_currency_nonempty.
      + by apply validate_currency_nonempty.
    - rewrite leb_zero_ltb by by apply ltb_zero_not_nan. by rewrite Hx. }
  rewrite Heq, convert_answer_table, Hrate. split.
  - intros x ->. eexists. split; [reflexivity|]. simpl.
    repeat (split; [reflexivity|]). split; [apply round2_two_places | reflexivity].
  - by intros e ->.
Qed.

(** C7. For a supported base currency and a rate table coming out of the
    cache lookup, [rates] answers 200 with exactly the entries of the
    table whose key is one of the eight supported codes. *)
Theorem get_rates_filters_supported env args w table w1 :
  validate_currency (arg_base args) = true →
  lookup_rates env (arg_base args) w = (Ret (JObject table), w1) →
  ∃ shown stamp,
    get_rates env args w = (RatesListing (arg_base args) shown stamp, tick w1) ∧
    ∀ code rate,
      shown !! code = Some rate ↔
      table !! code = Some rate ∧ code ∈ SUPPORTED_CURRENCIES.
Proof.
  intros Hb Hl. rewrite get_rates_checked by done. rewrite Hl. simpl.
  eexists _, _. split; [reflexivity|].
  intros code rate. by rewrite map_lookup_filter_Some.
Qed.

(** C10. Without a [base_currency] parameter the [rates] request is the
    one for GBP: it is not rejected (no 400), it is answered from the
    lookup of the GBP rates, and it is what the request with
    [base_currency=GBP] gets. *)
Theorem get_rates_defaults_to_gbp env args w :
  args !! "base_currency" = None →
  get_rates env args w = rates_answer env "GBP" (lookup_rates env "GBP" w) ∧
  get_rates env args w = get_rates env (<["base_currency" := "GBP"]> args) w ∧
  status_code (get_rates env args w).1 ≠ 400.
Proof.
  intros Hnone.
  assert (Hbase : arg_base args = "GBP")
    by (unfold arg_base, args_get; rewrite Hnone; reflexivity).
  assert (Hbase' : arg_base (<["base_currency" := "GBP"]> args) = "GBP")
    by (unfold arg_base, args_get; rewrite lookup_insert_eq; reflexivity).
  assert (Heq : get_rates env args w
                = rates_answer env "GBP" (lookup_rates env "GBP" w))
    by (rewrite get_rates_checked; rewrite Hbase; done).
  split; [done|]. split.
  - rewrite Heq. rewrite get_rates_checked; rewrite Hbase'; done.
  - rewrite Heq. apply rates_answer_not_400.
Qed.

(** ** The statements at work *)

Lemma standing_clock_in_bucket provider w :
  in_bucket (mk_env (fun _ => quarter_past_ten) provider) ten_o_clock w.
Proof. intros n _. reflexivity. Qed.



Lemma one_returned_fetch_per_bucket_witness :
  ∃ new,
    w_fetches (serve env_garbled_once twice initial_world).2
    = new ++ w_fetches initial_world ∧
    match fetches_for ("GBP", ten_o_clock) new with
    | [] => True
    | _ :: older => Forall (fun r => returned r = false) older
    end ∧
    (length (filter (fun r => returned r = true)
               (fetches_for ("GBP", ten_o_clock) new)) ≤ 1)%nat.
Proof.
  apply (one_returned_fetch_per_bucket env_garbled_once ten_o_clock twice "GBP"
           initial_world).
  apply standing_clock_in_bucket.
Defined.

(** C2 as stated does not hold: two conversions of GBP at 10:17, the
    first reply being a JSON array. The first request ends in a 500 and
    stores nothing, the second calls the provider again: two provider
    calls for (GBP, 10:00). *)
Lemma two_fetches_in_one_bucket :
  let run := serve env_garbled_once twice initial_world in
  in_bucket env_garbled_once ten_o_clock initial_world ∧
  status_code <$> run.1 = [500; 200] ∧
  length (fetches_for ("GBP", ten_o_clock) (w_fetches run.2)) = 2%nat.
Proof.
  split; [apply standing_clock_in_bucket|]. vm_compute. done.
Qed.

Lemma convert_validation_order_witness :
  convert_currency env_up (query "GBP" "XYZ" "abc") initial_world
  = (UnsupportedCurrency "XYZ", initial_world).
Proof.
  apply (proj1 (proj2 (proj2
           (convert_validation_order env_up (query "GBP" "XYZ" "abc") initial_world))));
    vm_compute; reflexivity.
Defined.

(** C4 as stated does not hold: with an unsupported source currency
    and an empty amount, the answer is [MissingParameters], not
    [UnsupportedCurrency] for the source code. *)
Lemma presence_is_checked_first :
  validate_currency "XYZ" = false ∧
  convert_currency env_up (query "XYZ" "USD" "") initial_world
  = (MissingParameters, initial_world) ∧
  (convert_currency env_up (query "XYZ" "USD" "") initial_world).1
  ≠ UnsupportedCurrency "XYZ".
Proof. vm_compute. done. Qed.

Lemma invalid_amount_iff_witness :
  (convert_currency env_up (query "GBP" "USD" "-5") initial_world).1 = InvalidAmount.
Proof.
  apply (proj1 (invalid_amount_iff env_up (query "GBP" "USD" "-5") initial_world
                  eq_refl eq_refl eq_refl
                  ltac:(vm_compute; discriminate))).
  right. exists (Float.of_decimal true 5 0). vm_compute. done.
Defined.

(** C5 as stated does not hold: the empty amount does not parse as a
    number, and with two supported currencies the answer is
    [MissingParameters], not [InvalidAmount]. *)
Lemma empty_amount_is_missing :
  Float.float_of_string "" = None ∧
  validate_currency "GBP" = true ∧ validate_currency "USD" = true ∧
  (convert_currency env_up (query "GBP" "USD" "") initial_world).1
  = MissingParameters ∧
  (convert_currency env_up (query "GBP" "USD" "") initial_world).1
  ≠ InvalidAmount.
Proof. vm_compute. done. Qed.

(** The amount [nan] parses to NaN, which is not at most zero: it passes
    the amount check and is converted. *)
Lemma nan_amount_is_converted :
  Float.float_of_string "nan" = Some Float.nan ∧
  Float.leb Float.nan Float.zero = false ∧
  Float.ltb Float.zero Float.nan = false ∧
  (from_amount <$> conversion_of
     (convert_currency env_up (query "GBP" "USD" "nan") initial_world).1)
  = Some Float.nan.
Proof. vm_compute. done. Qed.

Lemma convert_rounds_amount_only_witness :
  (∃ c,
     convert_currency env_odd_rate gbp_usd_3 initial_world
     = (Converted c, tick (lookup_rates env_odd_rate "GBP" initial_world).2) ∧
     from_currency c = arg_from gbp_usd_3 ∧ from_amount c = three ∧
     to_currency c = arg_to gbp_usd_3 ∧
     exchange_rate c = JFloat rate_1_2345 ∧
     to_amount c = Float.round2 (Float.mul three rate_1_2345) ∧
     rounded_to_two_places (Float.mul three rate_1_2345) (to_amount c) ∧
     timestamp c
     = Datetime.isoformat
         (clock env_odd_rate
            (w_ticks (lookup_rates env_odd_rate "GBP" initial_world).2))) ∧
  (convert_currency env_odd_rate gbp_usd_3 initial_world).1
  = Converted (mk_conversion "GBP" (S754_finite false 6755399441055744 (-51)) "USD"
                 (S754_finite false 8331659310635418 (-51))
                 (JFloat (S754_finite false 5559693739988877 (-52)))
                 "2024-07-15T10:17:42.123456") ∧
  Float.mul three rate_1_2345 = S754_finite false 8339540609983316 (-51).
Proof.
  split; [|vm_compute; done].
  apply (proj1 (convert_rounds_amount_only env_odd_rate gbp_usd_3 initial_world
                  three odd_table (JFloat rate_1_2345)
                  (lookup_rates env_odd_rate "GBP" initial_world).2
                  ltac:(vm_compute; reflexivity) ltac:(vm_compute; reflexivity)
                  ltac:(vm_compute; reflexivity) ltac:(vm_compute; reflexivity)
                  ltac:(vm_compute; reflexivity) ltac:(vm_compute; reflexivity))
           rate_1_2345).
  reflexivity.
Defined.

(** 3 at 1.2345: the product is 3.7035 (the binary64
    0x1.da0c49ba5e354p+1), the answer carries 3.7
    (0x1.d99999999999ap+1, the float of the text 3.70) and the rate
    1.2345 as it came. *)
Lemma three_at_1_2345 :
  Float.float_of_string "3" = Some three ∧
  Float.mul three rate_1_2345 = product_3_7035 ∧
  conversion_of (convert_currency env_odd_rate gbp_usd_3 initial_world).1
  = Some (mk_conversion "GBP" three "USD" three_point_seven (JFloat rate_1_2345)
            "2024-07-15T10:17:42.123456") ∧
  three_point_seven ≠ product_3_7035 ∧
  Float.float_of_string "3.70" = Some three_point_seven ∧
  Float.float_of_string "1.2345" = Some rate_1_2345.
Proof. vm_compute. repeat split; congruence. Qed.

(** C6 as stated does not hold: GBP to USD and the amount 100, with a
    provider table that has the target code, as the text "1.27". The
    product [amount * rate] raises [TypeError] and the answer is a 500. *)
Lemma rate_text_is_500 :
  validate_currency "GBP" = true ∧ validate_currency "USD" = true ∧
  Float.float_of_string "100" = Some one_hundred ∧
  Float.ltb Float.zero one_hundred = true ∧
  (lookup_rates env_text_rate "GBP" initial_world).1 = Ret (JObject text_table) ∧
  text_table !! "USD" = Some (JString "1.27") ∧
  (convert_currency env_text_rate gbp_usd_100 initial_world).1
  = InternalServerError TypeError.
Proof. vm_compute. done. Qed.

(** 100 times 1.27 is 127 exactly in binary64, and stays 127 when rounded
    to two places: 100 GBP at 1.27 is answered with 127.0
    (0x1.fcp+6) and the rate 1.27 (0x1.451eb851eb852p+0). *)
Lemma one_hundred_at_1_27 :
  Float.float_of_string "100" = Some one_hundred ∧
  Float.float_of_string "1.27" = Some rate_1_27 ∧
  Float.round2 (Float.mul one_hundred rate_1_27) = one_two_seven ∧
  Float.float_of_string "127.00" = Some one_two_seven ∧
  conversion_of (convert_currency env_up gbp_usd_100 initial_world).1
  = Some (mk_conversion "GBP" (S754_finite false 7036874417766400 (-46)) "USD"
            (S754_finite false 8936830510563328 (-46))
            (JFloat (S754_finite false 5719571526760530 (-52)))
            "2024-07-15T10:17:42.123456").
Proof. vm_compute. done. Qed.

Lemma get_rates_filters_supported_witness :
  ∃ shown stamp,
    get_rates env_eur eur_query initial_world
    = (RatesListing (arg_base eur_query) shown stamp,
       tick (lookup_rates env_eur (arg_base eur_query) initial_world).2) ∧
    ∀ code rate,
      shown !! code = Some rate ↔
      eur_table !! code = Some rate ∧ code ∈ SUPPORTED_CURRENCIES.
Proof.
  apply (get_rates_filters_supported env_eur eur_query initial_world eur_table
           (lookup_rates env_eur (arg_base eur_query) initial_world).2).
  - vm_compute. reflexivity.
  - vm_compute. reflexivity.
Defined.

(** The table {USD: 1.1, JPY: 160, XXX: 5} is listed as USD and JPY only. *)
Lemma eur_listing :
  ∃ stamp, (get_rates env_eur eur_query initial_world).1
           = RatesListing "EUR" (delete "XXX" eur_table) stamp.
Proof. eexists. vm_compute. reflexivity. Qed.



Lemma timestamp_is_response_time_witness :
  w_ticks (convert_currency env_up gbp_usd_100 initial_world).2 = 2%nat ∧
  timestamp gbp_usd_answer = Datetime.isoformat (clock env_up 1).
Proof.
  apply (timestamp_is_response_time env_up gbp_usd_100 initial_world gbp_usd_answer).
  vm_compute. reflexivity.
Defined.

(** C9 as stated does not hold: two conversions in the ten o'clock
    bucket, at 10:00 and at 10:40. One provider call is made, during the
    first request (between the clock readings 10:00:00 and 10:00:01); the
    second conversion is served from that table and is stamped 10:40:03,
    forty minutes after the table was produced. *)
Lemma timestamp_is_not_snapshot_time :
  let run := serve env_two_visits twice initial_world in
  (fmap timestamp ∘ conversion_of) <$> run.1
  = [Some "2024-07-15T10:00:01"; Some "2024-07-15T10:40:03"] ∧
  length (w_fetches run.2) = 1%nat ∧
  Lru.hits (w_cache run.2) = 1%nat ∧
  w_fetches (serve env_two_visits [GET_convert gbp_usd_100] initial_world).2
  = w_fetches run.2 ∧
  Datetime.isoformat <$> [clock env_two_visits 0; clock env_two_visits 1]
  = ["2024-07-15T10:00:00"; "2024-07-15T10:00:01"].
Proof. vm_compute. done. Qed.

Lemma get_rates_defaults_to_gbp_witness :
  get_rates env_up ∅ initial_world
  = rates_answer env_up "GBP" (lookup_rates env_up "GBP" initial_world) ∧
  get_rates env_up ∅ initial_world
  = get_rates env_up (<["base_currency" := "GBP"]> ∅) initial_world ∧
  status_code (get_rates env_up ∅ initial_world).1 ≠ 400.
Proof.
  apply (get_rates_defaults_to_gbp env_up ∅ initial_world). reflexivity.
Defined.

(** * Further properties *)

(** ** Bucket keys *)

Lemma string_app_inj s1 s2 t1 t2 :
  String.length s1 = String.length s2 →
  s1 +:+ t1 = s2 +:+ t2 → s1 = s2 ∧ t1 = t2.
Proof.
  revert s2. induction s1 as [|c r IH]; intros [|c' r'] Hlen Heq;
    simpl in *; try done.
  injection Heq as -> Heq. injection Hlen as Hlen.
  destruct (IH _ Hlen Heq) as [-> ->]. done.
Qed.

Lemma below_forall (P : Z → bool) (k : Z) :
  forallb P (Z.of_nat <$> seq 0 (Z.to_nat k)) = true →
  ∀ n, 0 <= n < k → P n = true.
Proof.
  intros H n Hn. rewrite forallb_forall in H. apply H.
  apply list_elem_of_In, list_elem_of_fmap. exists (Z.to_nat n).
  split; [lia|]. apply elem_of_seq. lia.
Qed.

Lemma pad0_4_reads n :
  0 <= n < 10000 →
  String.length (Text.pad0 4 n) = 4%nat ∧ read_digits (Text.pad0 4 n) = n.
Proof.
  intros Hn.
  pose proof (below_forall
    (fun n => (String.length (Text.pad0 4 n) =? 4)%nat
              && (read_digits (Text.pad0 4 n) =? n)) 10000) as H.
  specialize (H ltac:(vm_compute; reflexivity) n ltac:(lia)).
  apply andb_true_iff in H as [H1 H2].
  apply Nat.eqb_eq in H1. apply Z.eqb_eq in H2. done.
Qed.

Lemma pad0_2_reads n :
  0 <= n < 100 →
  String.length (Text.pad0 2 n) = 2%nat ∧ read_digits (Text.pad0 2 n) = n.
Proof.
  intros Hn.
  pose proof (below_forall
    (fun n => (String.length (Text.pad0 2 n) =? 2)%nat
              && (read_digits (Text.pad0 2 n) =? n)) 100) as H.
  specialize (H ltac:(vm_compute; reflexivity) n ltac:(lia)).
  apply andb_true_iff in H as [H1 H2].
  apply Nat.eqb_eq in H1. apply Z.eqb_eq in H2. done.
Qed.

Lemma days_in_month_le_31 y m : 1 <= m <= 12 → Datetime.days_in_month y m <= 31.
Proof.
  intros Hm. unfold Datetime.days_in_month.
  assert (m = 1 ∨ m = 2 ∨ m = 3 ∨ m = 4 ∨ m = 5 ∨ m = 6 ∨ m = 7 ∨ m = 8 ∨
          m = 9 ∨ m = 10 ∨ m = 11 ∨ m = 12) as Hcases by lia.
  destruct (Datetime.is_leap y);
    repeat (destruct Hcases as [->|Hcases]; [vm_compute; discriminate|]);
    subst; vm_compute; discriminate.
Qed.

Lemma hour_key_shape t :
  Datetime.isoformat (top_of_hour t)
  = Text.pad0 4 (Datetime.year t) +:+ "-" +:+ Text.pad0 2 (Datetime.month t)
    +:+ "-" +:+ Text.pad0 2 (Datetime.day t) +:+ "T"
    +:+ Text.pad0 2 (Datetime.hour t) +:+ ":00:00".
Proof. reflexivity. Qed.

Lemma same_key_same_hour t1 t2 :
  Datetime.valid t1 → Datetime.valid t2 →
  get_cache_key_at t1 = get_cache_key_at t2 → date_hour t1 = date_hour t2.
Proof.
  intros Hv1 Hv2.
  rewrite !get_cache_key_at_valid by done. rewrite !hour_key_shape.
  destruct Hv1 as (Hy1 & Hm1 & Hd1 & Hh1 & _).
  destruct Hv2 as (Hy2 & Hm2 & Hd2 & Hh2 & _).
  pose proof (days_in_month_le_31 (Datetime.year t1) _ Hm1).
  pose proof (days_in_month_le_31 (Datetime.year t2) _ Hm2).
  unfold Datetime.MINYEAR, Datetime.MAXYEAR in *.
  unfold date_hour. intros [= Heq].
  destruct (pad0_4_reads (Datetime.year t1)) as [L1 R1]; [lia|].
  destruct (pad0_4_reads (Datetime.year t2)) as [L2 R2]; [lia|].
  apply (string_app_inj (Text.pad0 4 (Datetime.year t1))
           (Text.pad0 4 (Datetime.year t2))) in Heq as [Ey Heq]; [|congruence].
  simpl in Heq. injection Heq as Heq.
  destruct (pad0_2_reads (Datetime.month t1)) as [L3 R3]; [lia|].
  destruct (pad0_2_reads (Datetime.month t2)) as [L4 R4]; [lia|].
  apply (string_app_inj (Text.pad0 2 (Datetime.month t1))
           (Text.pad0 2 (Datetime.month t2))) in Heq as [Em Heq]; [|congruence].
  simpl in Heq. injection Heq as Heq.
  destruct (pad0_2_reads (Datetime.day t1)) as [L5 R5]; [lia|].
  destruct (pad0_2_reads (Datetime.day t2)) as [L6 R6]; [lia|].
  apply (string_app_inj (Text.pad0 2 (Datetime.day t1))
           (Text.pad0 2 (Datetime.day t2))) in Heq as [Ed Heq]; [|congruence].
  simpl in Heq. injection Heq as Heq.
  destruct (pad0_2_reads (Datetime.hour t1)) as [L7 R7]; [lia|].
  destruct (pad0_2_reads (Datetime.hour t2)) as [L8 R8]; [lia|].
  apply (string_app_inj (Text.pad0 2 (Datetime.hour t1))
           (Text.pad0 2 (Datetime.hour t2))) in Heq as [Eh _]; [|congruence].
  assert (Datetime.year t1 = Datetime.year t2) as -> by congruence.
  assert (Datetime.month t1 = Datetime.month t2) as -> by congruence.
  assert (Datetime.day t1 = Datetime.day t2) as -> by congruence.
  assert (Datetime.hour t1 = Datetime.hour t2) as -> by congruence.
  reflexivity.
Qed.

(** X1. Two valid clock readings get the same cache key exactly when
    they agree on the date and the hour: readings within one hour share a
    key, readings in different hours never do. *)
Theorem same_key_iff_same_hour t1 t2 :
  Datetime.valid t1 → Datetime.valid t2 →
  get_cache_key_at t1 = get_cache_key_at t2 ↔ date_hour t1 = date_hour t2.
Proof.
  intros Hv1 Hv2. split.
  - by apply same_key_same_hour.
  - rewrite !get_cache_key_at_valid by done. rewrite !hour_key_shape.
    unfold date_hour. intros [= -> -> -> ->]. reflexivity.
Qed.

Lemma same_key_iff_same_hour_witness :
  get_cache_key_at (clock env_two_visits 0) = get_cache_key_at (clock env_two_visits 3)
  ↔ date_hour (clock env_two_visits 0) = date_hour (clock env_two_visits 3).
Proof.
  apply (same_key_iff_same_hour (clock env_two_visits 0) (clock env_two_visits 3));
    unfold Datetime.valid; vm_compute; intuition congruence.
Defined.

(** ** The memoiser's bookkeeping *)

Lemma find_Some_length k l v rest :
  Lru.find k l = Some (v, rest) → length l = S (length rest).
Proof.
  intros H. apply find_Some_keys in H. apply Permutation_length in H.
  unfold Lru.keys in H. rewrite !length_fmap in H. simpl in H.
  by rewrite length_fmap in H.
Qed.

Lemma removelast_take {A} (l : list A) : removelast l = take (length l - 1) l.
Proof.
  rewrite removelast_firstn_len. f_equal. lia.
Qed.

Lemma removelast_sublist {A} (l : list A) : removelast l `sublist_of` l.
Proof. rewrite removelast_take. apply sublist_take. Qed.

Lemma removelast_keys l : Lru.keys (removelast l) = removelast (Lru.keys l).
Proof.
  unfold Lru.keys. rewrite !removelast_take, fmap_take, length_fmap. reflexivity.
Qed.

(** One memoised call: one more lookup; a miss is a provider call and a
    hit is none; the cache keeps its shape; the clock is not read. *)
Lemma get_exchange_rates_counts env base key w :
  let w' := (get_exchange_rates env base key w).2 in
  lookups w' = S (lookups w) ∧ accounted w w' ∧
  (length (w_fetches w') ≤ S (length (w_fetches w)))%nat ∧
  (cache_ok w → cache_ok w') ∧ w_ticks w' = w_ticks w.
Proof.
  rewrite get_exchange_rates_eq. cbv zeta. unfold lookups, accounted, cache_ok.
  destruct (Lru.find _ _) as [[v rest]|] eqn:E; simpl.
  - split; [lia|]. split; [lia|]. split; [lia|]. split; [|done].
    intros [Hnd Hlen]. pose proof (find_Some_keys _ _ _ _ E) as Hperm.
    pose proof (find_Some_length _ _ _ _ E) as Hl.
    rewrite Hperm in Hnd. split; [done | lia].
  - split; [lia|]. split; [lia|]. split; [lia|]. split; [|done].
    intros [Hnd Hlen]. destruct (rates_of_reply _) as [v|e]; simpl; [|done].
    apply find_None in E. unfold Lru.store.
    destruct (decide _) as [Hfull|Hroom]; simpl.
    + split.
      * rewrite removelast_keys. apply NoDup_cons. split.
        -- intros Hin. apply E.
           eapply elem_of_sublist; [done | apply removelast_sublist].
        -- eapply sublist_NoDup; [done | apply removelast_sublist].
      * rewrite removelast_take, length_take. lia.
    + split; [by apply NoDup_cons | lia].
Qed.

Lemma accounted_refl w : accounted w w.
Proof. unfold accounted. lia. Qed.

Lemma accounted_trans w1 w2 w3 : accounted w1 w2 → accounted w2 w3 → accounted w1 w3.
Proof. unfold accounted. lia. Qed.

Lemma accounted_tick w w' : accounted w w' → accounted w (tick w').
Proof. done. Qed.

Lemma lookup_rates_eq env base w :
  lookup_rates env base w
  = match get_cache_key_at (clock env (w_ticks w)) with
    | Ret key => get_exchange_rates env base key (tick w)
    | Raise e => (Raise e, tick w)
    end.
Proof.
  unfold lookup_rates, get_cache_key, datetime_now, lift, mbind, Py_bind.
  destruct (get_cache_key_at _); reflexivity.
Qed.

Lemma lookup_rates_counts env base w :
  let w' := (lookup_rates env base w).2 in
  accounted w w' ∧ (length (w_fetches w') ≤ S (length (w_fetches w)))%nat ∧
  (cache_ok w → cache_ok w').
Proof.
  rewrite lookup_rates_eq. destruct (get_cache_key_at _) as [key|e]; simpl.
  - destruct (get_exchange_rates_counts env base key (tick w))
      as (_ & Ha & Hle & Hok & _). done.
  - split; [apply accounted_tick, accounted_refl|]. split; [lia|done].
Qed.

Lemma touched_counts env bases w w' :
  touched env bases w w' →
  accounted w w' ∧ (length (w_fetches w') ≤ S (length (w_fetches w)))%nat ∧
  (cache_ok w → cache_ok w').
Proof.
  intros [->|(base & res & w1 & _ & Hl & Hw')].
  { split; [apply accounted_refl|]. split; [lia|done]. }
  pose proof (lookup_rates_counts env base w) as H. rewrite Hl in H. simpl in H.
  destruct Hw' as [->| ->]; done.
Qed.

Lemma serve_one_touched env r w : touched env supported w (serve_one env r w).2.
Proof.
  destruct (serve_one_cases env r w) as [H|(base & res & w1 & H)]; [by left|].
  right. by exists base, res, w1.
Qed.

(** What follows the amount check on the form, path by path: the lookup
    raises, or one of the later steps does; the lookup gives [None]; the
    looked-up value does not have the target code; or it is a table with
    a number for the target code. *)
Lemma gui_convert_body_cases env g amount w :
  let from := Gui.from_currency_var g in
  let to := Gui.to_currency_var g in
  let g1 := Gui.set_status "Converting..." g in
  ∃ res w1,
    lookup_rates env from w = (res, w1) ∧
    ((∃ e, Gui.convert_body env g amount w = (Raise e, w1) ∧
           (res = Raise e ∨ ∃ rates, res = Ret rates ∧ rates ≠ JNull)) ∨
     (res = Ret JNull ∧
      Gui.convert_body env g amount w
      = (Ret (Gui.set_status "Ready | API: Error" (Gui.show Gui.ApiError g1)), w1)) ∨
     ((∃ rates, res = Ret rates ∧ rates ≠ JNull ∧
                Json.contains rates to = Ret false) ∧
      Gui.convert_body env g amount w = (Ret (Gui.show (Gui.RateMissing to) g1), w1)) ∨
     (∃ table rate x,
        res = Ret (JObject table) ∧ table !! to = Some rate ∧
        Json.as_float rate = Ret x ∧
        Gui.convert_body env g amount w
        = (Ret (Gui.set_status
                  ("Ready | Last Update: "
                   +:+ Gui.clock_text (clock env (w_ticks w1)))
                  (Gui.set_result
                     (Gui.result_line from to amount (Float.mul amount x))
                     (Gui.rate_line from to x) g1)),
           tick w1))).
Proof.
  cbv zeta. unfold Gui.convert_body, lookup_rates, mbind, Py_bind.
  destruct (get_cache_key env w) as [[key|e] w0].
  2: { eexists _, _. split; [reflexivity|]. left. eauto. }
  destruct (get_exchange_rates env _ key w0) as [[rates|e] w1].
  2: { eexists _, _. split; [reflexivity|]. left. eauto. }
  eexists _, _. split; [reflexivity|].
  destruct rates as [|?|?|?|s|l|table]; unfold lift; cbv beta iota;
    try (left; eexists; split; [reflexivity|]; right; eexists; by split).
  - right. left. done.
  - simpl. destruct (Json.is_substring _ s) eqn:E; simpl.
    + left. eexists. split; [reflexivity|]. right. eexists. by split.
    + right. right. left. split; [|reflexivity]. eexists. repeat split; [done|].
      simpl. by rewrite E.
  - simpl. destruct (existsb _ l) eqn:E; simpl.
    + left. eexists. split; [reflexivity|]. right. eexists. by split.
    + right. right. left. split; [|reflexivity]. eexists. repeat split; [done|].
      simpl. by rewrite E.
  - unfold Json.contains, Json.subscript, Json.times.
    destruct (table !! Gui.to_currency_var g) as [rate|] eqn:E.
    + rewrite bool_decide_eq_true_2 by eauto. simpl.
      destruct (Json.as_float rate) as [x|e] eqn:Ex; simpl.
      * right. right. right. by exists table, rate, x.
      * left. eexists. split; [reflexivity|]. right. eexists. by split.
    + rewrite bool_decide_eq_false_2 by (by intros [? ?]). simpl.
      right. right. left. split; [|reflexivity]. eexists. repeat split; [done|].
      simpl. rewrite bool_decide_eq_false_2; [done | by rewrite E; intros [? ?]].
Qed.

(** The [Convert] button leaves the two currency variables alone, and
    either stops at the amount check or looks the rates of the source
    currency up. *)
Lemma gui_convert_touched env g w :
  let r := Gui.convert_currency env g w in
  Gui.from_currency_var r.1 = Gui.from_currency_var g ∧
  Gui.to_currency_var r.1 = Gui.to_currency_var g ∧
  touched env (fun base => base = Gui.from_currency_var g) w r.2.
Proof.
  unfold Gui.convert_currency.
  destruct (Float.float_of_string _) as [x|]; [|by repeat split; left].
  destruct (Float.leb x Float.zero); [by repeat split; left|].
  destruct (gui_convert_body_cases env g x w) as (res & w1 & Hl & Hc).
  unfold touched.
  destruct Hc as [(e & -> & _)|[[_ ->]|[[_ ->]|(table & rate & y & _ & _ & _ & ->)]]];
    repeat split; right; eexists _, res, w1; by eauto.
Qed.

Lemma perform_touched env a g w :
  supported (Gui.from_currency_var g) →
  supported (Gui.from_currency_var (perform env a (g, w)).1) ∧
  touched env supported w (perform env a (g, w)).2.
Proof.
  intros Hg. destruct a as [r|c|c|s|]; simpl.
  - split; [done | apply serve_one_touched].
  - split; [|by left]. unfold Gui.pick_from.
    destruct (bool_decide _) eqn:E; [|done]. simpl.
    by apply bool_decide_eq_true_1 in E.
  - split; [|by left]. unfold Gui.pick_to. by destruct (bool_decide _).
  - split; [done | by left].
  - destruct (gui_convert_touched env g w) as (-> & _ & Ht). split; [done|].
    destruct Ht as [H|(base & res & w1 & -> & H)]; [by left|].
    right. by exists (Gui.from_currency_var g), res, w1.
Qed.

Lemma perform_all_cons env a rest st :
  perform_all env (a :: rest) st = perform_all env rest (perform env a st).
Proof. reflexivity. Qed.

Lemma perform_all_counts env actions : ∀ g w,
  supported (Gui.from_currency_var g) →
  let w' := (perform_all env actions (g, w)).2 in
  accounted w w' ∧
  (length (w_fetches w') ≤ length (w_fetches w) + length actions)%nat ∧
  (cache_ok w → cache_ok w').
Proof.
  induction actions as [|a rest IH]; intros g w Hg; cbv zeta.
  { simpl. split; [apply accounted_refl|]. split; [lia|done]. }
  rewrite perform_all_cons.
  destruct (perform_touched env a g w Hg) as [Hg1 Ht].
  apply touched_counts in Ht as (Ha & Hle & Hok).
  destruct (perform env a (g, w)) as [g1 w1]. simpl in *.
  destruct (IH g1 w1 Hg1) as (Ha2 & Hle2 & Hok2).
  split; [by eapply accounted_trans|]. split; [lia | auto].
Qed.

(** X2. The memoiser never holds more than 128 entries and never two
    entries for one key: whatever HTTP requests are served and whatever is
    done on the form, a cache in that shape stays in that shape. *)
Theorem cache_stays_bounded env actions g w :
  supported (Gui.from_currency_var g) →
  cache_ok w →
  cache_ok (perform_all env actions (g, w)).2.
Proof.
  intros Hg Hok. by apply (perform_all_counts env actions g w Hg).
Qed.

Lemma cache_stays_bounded_witness :
  cache_ok (perform_all env_up [Http (GET_rates ∅); ClickConvert]
              (Gui.initial, initial_world)).2.
Proof.
  apply (cache_stays_bounded env_up [Http (GET_rates ∅); ClickConvert]
           Gui.initial initial_world).
  - vm_compute. constructor.
  - split; [constructor | simpl; lia].
Defined.



(** ** What a request costs *)

Lemma convert_answer_status env from to amount res w1 :
  let r := convert_answer env from to amount (res, w1) in
  status_code r.1 = 200 ∧ r.2 = tick w1 ∨ status_code r.1 ≠ 200 ∧ r.2 = w1.
Proof.
  cbv zeta. destruct res as [rates|e]; [|by right].
  unfold convert_answer. destruct rates; cbv beta iota; try (by right);
    (destruct (Json.contains _ _) as [[]|]; try (by right));
    (destruct (_ ≫= _) as [[rate p]|]; [by left | by right]).
Qed.

Lemma rates_answer_status env base res w1 :
  let r := rates_answer env base (res, w1) in
  status_code r.1 = 200 ∧ r.2 = tick w1 ∨ status_code r.1 ≠ 200 ∧ r.2 = w1.
Proof.
  cbv zeta. destruct res as [rates|e]; [destruct rates|]; simpl;
    (by left) || (by right).
Qed.

(** X4. With a clock that gives valid readings, an HTTP request answered
    400 leaves the world exactly as it was, and any other request makes
    exactly one cache lookup (a hit or a miss) and reads the clock once,
    or twice when the answer is 200 (the second reading is the
    timestamp). *)
Theorem accepted_request_one_lookup env r w :
  (∀ n, Datetime.valid (clock env n)) →
  let resp := (serve_one env r w).1 in
  let w' := (serve_one env r w).2 in
  (status_code resp = 400 → w' = w) ∧
  (status_code resp ≠ 400 →
   lookups w' = S (lookups w) ∧
   w_ticks w' = ((if decide (status_code resp = 200%Z) then 2 else 1) + w_ticks w)%nat).
Proof.
  intros Hvalid resp w'. subst resp w'.
  assert (Hlook : ∀ base,
            ∃ res w1, lookup_rates env base w = (res, w1) ∧
                      lookups w1 = S (lookups w) ∧ w_ticks w1 = S (w_ticks w)).
  { intros base. rewrite lookup_rates_eq, get_cache_key_at_valid by done.
    destruct (get_exchange_rates_counts env base
                (Datetime.isoformat (top_of_hour (clock env (w_ticks w)))) (tick w))
      as (Hl & _ & _ & _ & Ht).
    destruct (get_exchange_rates env base _ (tick w)) as [res w1].
    exists res, w1. done. }
  destruct r as [args|args]; simpl.
  - destruct (convert_currency_inv env args w)
      as [[Hw H400]|(x & _ & _ & _ & _ & _ & Heq)].
    { split; [done|]. intros Hne. by rewrite H400 in Hne. }
    rewrite Heq.
    destruct (Hlook (arg_from args)) as (res & w1 & -> & Hl & Ht).
    split.
    { intros H400. by apply convert_answer_not_400 in H400. }
    intros _.
    destruct (convert_answer_status env (arg_from args) (arg_to args) x res w1)
      as [[Hs ->]|[Hs ->]]; (destruct (decide _); [|]); try done.
    split; [done | simpl; lia].
  - destruct (get_rates_inv env args w) as [[Hw H400]|[_ Heq]].
    { split; [done|]. intros Hne. by rewrite H400 in Hne. }
    rewrite Heq.
    destruct (Hlook (arg_base args)) as (res & w1 & -> & Hl & Ht).
    split.
    { intros H400. by apply rates_answer_not_400 in H400. }
    intros _.
    destruct (rates_answer_status env (arg_base args) res w1)
      as [[Hs ->]|[Hs ->]]; (destruct (decide _); [|]); try done.
    split; [done | simpl; lia].
Qed.

Lemma accepted_request_one_lookup_witness :
  let resp := (serve_one env_up (GET_convert gbp_usd_100) initial_world).1 in
  let w' := (serve_one env_up (GET_convert gbp_usd_100) initial_world).2 in
  (status_code resp = 400 → w' = initial_world) ∧
  (status_code resp ≠ 400 →
   lookups w' = S (lookups initial_world) ∧
   w_ticks w'
   = ((if decide (status_code resp = 200%Z) then 2 else 1) + w_ticks initial_world)%nat).
Proof.
  apply (accepted_request_one_lookup env_up (GET_convert gbp_usd_100) initial_world).
  intros n. unfold Datetime.valid. vm_compute. intuition congruence.
Defined.

Lemma convert_answer_rates env from to amount rates w1 :
  (convert_answer env from to amount (Ret rates, w1)).1
  = answer_to_rates from to amount (Datetime.isoformat (clock env (w_ticks w1))) rates.
Proof.
  destruct rates as [|?|?|?|s|l|table];
    try (unfold convert_answer; simpl; done).
  - unfold convert_answer. simpl. by destruct (Json.is_substring to s).
  - unfold convert_answer. simpl. by destruct (existsb _ l).
  - rewrite convert_answer_table. simpl.
    destruct (table !! to) as [rate|]; [|done].
    destruct rate as [|[]|n|?|?|?|?]; simpl; try done.
    destruct (Float.of_Z n); done.
Qed.

Lemma answer_to_reply_rates from to amount stamp reply :
  answer_to_reply from to amount stamp reply
  = match rates_of_reply reply with
    | Ret rates => answer_to_rates from to amount stamp rates
    | Raise e => InternalServerError e
    end.
Proof.
  destruct reply as [|[| | | | | |data]]; try reflexivity.
  unfold rates_of_reply, answer_to_reply, Json.get. simpl.
  destruct (data !! "result") as [[| | | |result| |]|]; simpl; try reflexivity.
  destruct (String.eqb result "success"); [|reflexivity].
  destruct (data !! "conversion_rates"); simpl; [reflexivity|].
  by rewrite lookup_empty.
Qed.

(** X5. A conversion that passes the checks and finds no cache entry for
    its key calls the provider once, and the reply decides the answer,
    as [answer_to_reply] lists it: a failed request, a result other than
    success, or null for the rates give 503; a reply that is not a JSON
    object gives 500; a success reply without [conversion_rates] is an
    empty table, so 404; rates that are a number or a truth value give
    500; rates that are a list or a text give 404 unless the target code
    is in them, and 500 if it is; a table gives 404 when it lacks the
    target code, 200 when it holds a number for it (an integer beyond
    the floats: 500), and 500 when it holds anything else. *)
Theorem convert_on_miss env args w amount key :
  all_present args = true →
  validate_currency (arg_from args) = true →
  validate_currency (arg_to args) = true →
  Float.float_of_string (arg_amount args) = Some amount →
  Float.leb amount Float.zero = false →
  get_cache_key_at (clock env (w_ticks w)) = Ret key →
  Lru.find (arg_from args, key) (Lru.entries (w_cache w)) = None →
  let reply := next_reply env w (arg_from args) in
  w_fetches (convert_currency env args w).2
  = ((arg_from args, key), reply) :: w_fetches w ∧
  (convert_currency env args w).1
  = answer_to_reply (arg_from args) (arg_to args) amount
      (Datetime.isoformat (clock env (S (w_ticks w)))) reply.
Proof.
  intros Hp Hf Ht Ha Hx Hkey Hmiss reply. subst reply. unfold next_reply.
  rewrite (convert_currency_checked env args w amount) by done.
  rewrite lookup_rates_eq, Hkey, get_exchange_rates_eq. cbv zeta.
  simpl. rewrite Hmiss.
  rewrite answer_to_reply_rates.
  destruct (rates_of_reply (provider env _ _)) as [rates|e] eqn:Er; [|done].
  split; [|by rewrite convert_answer_rates].
  by destruct (convert_answer_world env (arg_from args) (arg_to args) amount
                 (Ret rates) (mk_world
       (Lru.mk_cache (Lru.store 128 (arg_from args, key) rates
                        (Lru.entries (w_cache w)))
          (Lru.hits (w_cache w)) (S (Lru.misses (w_cache w))))
       (S (w_ticks w))
       (((arg_from args, key), provider env (length (w_fetches w)) (arg_from args))
        :: w_fetches w))) as [-> | ->].
Qed.

Lemma convert_on_miss_witness :
  (convert_currency env_text_rate gbp_usd_100 initial_world).1
  = InternalServerError TypeError ∧
  let reply := next_reply env_text_rate initial_world (arg_from gbp_usd_100) in
  w_fetches (convert_currency env_text_rate gbp_usd_100 initial_world).2
  = ((arg_from gbp_usd_100, ten_o_clock), reply) :: w_fetches initial_world ∧
  (convert_currency env_text_rate gbp_usd_100 initial_world).1
  = answer_to_reply (arg_from gbp_usd_100) (arg_to gbp_usd_100) one_hundred
      (Datetime.isoformat (clock env_text_rate (S (w_ticks initial_world)))) reply.
Proof.
  split; [vm_compute; reflexivity|].
  apply (convert_on_miss env_text_rate gbp_usd_100 initial_world one_hundred
           ten_o_clock); vm_compute; reflexivity.
Defined.

(** Out of the ordinary replies, one conversion of 100 GBP to USD each,
    on an empty cache: the statuses, and the rate and amount of the two
    that succeed (the integer 2 gives 200.0, the truth value gives
    100.0). *)
Lemma odd_replies_answered :
  let answer reply :=
    (convert_currency (mk_env (fun _ => quarter_past_ten) (fun _ _ => reply))
       gbp_usd_100 initial_world).1 in
  status_code ∘ answer <$> odd_replies
  = [500; 404; 500; 404; 500; 200; 200; 500; 500; 404; 503; 500] ∧
  (fmap (fun c => (exchange_rate c, to_amount c)) ∘ conversion_of ∘ answer)
    <$> odd_replies
  = [None; None; None; None; None;
     Some (JInt 2, S754_finite false 7036874417766400 (-45));
     Some (JBool true, S754_finite false 7036874417766400 (-46));
     None; None; None; None; None].
Proof. vm_compute. done. Qed.

(** X6. The listing of [rates] never has more than eight entries, its
    keys are supported codes, and the base currency it names is one. *)
Theorem listing_at_most_eight env args w base shown stamp :
  (get_rates env args w).1 = RatesListing base shown stamp →
  (size shown ≤ 8)%nat ∧ supported base ∧
  ∀ code, is_Some (shown !! code) → supported code.
Proof.
  intros H.
  destruct (get_rates_inv env args w) as [[_ H400]|[Hb Heq]].
  { rewrite H in H400. done. }
  rewrite Heq in H.
  destruct (lookup_rates env (arg_base args) w) as [[all_rates|e] w1]; [|done].
  destruct all_rates as [| | | | | |rates]; simpl in H; try done.
  injection H as <- <- _.
  assert (Hkeys : ∀ code,
            is_Some (filter (fun kv => kv.1 ∈ SUPPORTED_CURRENCIES) rates !! code) →
            supported code).
  { intros code [rate Hr]. apply map_lookup_filter_Some in Hr as [_ Hin]. done. }
  split; [|split; [by apply validate_currency_upper | done]].
  rewrite <- size_dom.
  transitivity (size (list_to_set SUPPORTED_CURRENCIES : gset string)).
  - apply subseteq_size. intros code Hin. apply elem_of_dom in Hin.
    apply elem_of_list_to_set. by apply Hkeys.
  - vm_compute. lia.
Qed.

Lemma listing_at_most_eight_witness :
  (size (delete "XXX" eur_table) ≤ 8)%nat ∧ supported "EUR" ∧
  ∀ code, is_Some (delete "XXX" eur_table !! code) → supported code.
Proof.
  apply (listing_at_most_eight env_eur eur_query initial_world "EUR"
           (delete "XXX" eur_table) "2024-07-15T10:17:42.123456").
  vm_compute. reflexivity.
Defined.

(** ** Amounts and parameters *)

(** X7. An amount text that parses to NaN is not rejected: NaN is not
    at most zero, so the request passes the checks (no 400), and when
    the conversion succeeds both amounts of the answer are NaN. *)
Theorem nan_amount_passes env args w :
  all_present args = true →
  validate_currency (arg_from args) = true →
  validate_currency (arg_to args) = true →
  Float.float_of_string (arg_amount args) = Some Float.nan →
  status_code (convert_currency env args w).1 ≠ 400 ∧
  ∀ c, (convert_currency env args w).1 = Converted c →
       from_amount c = Float.nan ∧ to_amount c = Float.nan.
Proof.
  intros Hp Hf Ht Ha.
  rewrite (convert_currency_checked env args w Float.nan) by done.
  split; [apply convert_answer_not_400|].
  intros c Hc. destruct (lookup_rates env (arg_from args) w) as [res w1].
  destruct (convert_answer_Converted _ _ _ _ _ _ _ Hc)
    as (table & rate & y & _ & _ & _ & Heq).
  rewrite Heq in Hc. injection Hc as <-. done.
Qed.

Lemma nan_amount_passes_witness :
  status_code (convert_currency env_up (query "GBP" "USD" " NaN ") initial_world).1
  ≠ 400 ∧
  ∀ c, (convert_currency env_up (query "GBP" "USD" " NaN ") initial_world).1
       = Converted c →
       from_amount c = Float.nan ∧ to_amount c = Float.nan.
Proof.
  apply (nan_amount_passes env_up (query "GBP" "USD" " NaN ") initial_world);
    vm_compute; reflexivity.
Defined.

(** X8. [convert] reads three things from the query string and nothing
    else: the two currency codes, upper-cased, and the amount text. Two
    requests that agree on these get the same answer and act on the world
    in the same way; the letter case of the codes and any other
    parameter make no difference. *)
Theorem convert_reads_three_fields env args args' w :
  arg_from args = arg_from args' →
  arg_to args = arg_to args' →
  arg_amount args = arg_amount args' →
  convert_currency env args w = convert_currency env args' w.
Proof.
  intros Hf Ht Ha.
  assert (Hp : all_present args = all_present args')
    by (unfold all_present; by rewrite Hf, Ht, Ha).
  destruct (all_present args) eqn:Ep.
  2: { by rewrite !convert_currency_missing. }
  destruct (validate_currency (arg_from args)) eqn:Ef.
  2: { rewrite !convert_currency_bad_from; congruence. }
  destruct (validate_currency (arg_to args)) eqn:Et.
  2: { rewrite !convert_currency_bad_to; congruence. }
  destruct (Float.float_of_string (arg_amount args)) as [x|] eqn:Ex.
  2: { rewrite !convert_currency_bad_amount; try congruence; left; congruence. }
  destruct (Float.leb x Float.zero) eqn:El.
  { rewrite !convert_currency_bad_amount; try congruence;
      right; exists x; split; congruence. }
  rewrite (convert_currency_checked env args w x),
          (convert_currency_checked env args' w x); congruence.
Qed.

Lemma convert_reads_three_fields_witness :
  convert_currency env_up (<["callback" := "x"]> (query "Gbp" "usd" "100")) initial_world
  = convert_currency env_up gbp_usd_100 initial_world.
Proof.
  apply (convert_reads_three_fields env_up
           (<["callback" := "x"]> (query "Gbp" "usd" "100")) gbp_usd_100
           initial_world);
    vm_compute; reflexivity.
Defined.

(** ** Recency *)







(** ** The form and the HTTP service on one cache *)

Lemma touched_step env b w w' :
  in_bucket env b w → touched env supported w w' →
  (w_ticks w ≤ w_ticks w')%nat ∧
  (w_fetches w' = w_fetches w ∨
   ∃ base reply,
     supported base ∧
     w_fetches w' = ((base, b), reply) :: w_fetches w ∧
     (returned reply = true →
      ∃ v, pinned (base, b) v (Lru.entries (w_cache w')))) ∧
  (∀ k v, pinned k v (Lru.entries (w_cache w)) →
          k.1 ∈ SUPPORTED_CURRENCIES → k.2 = b →
          pinned k v (Lru.entries (w_cache w')) ∧
          fetches_for k (w_fetches w') = fetches_for k (w_fetches w)).
Proof.
  intros Hb [->|(base & res & w1 & Hsup & Hl & Hw')].
  { split; [done|]. split; [by left|]. by intros k v Hp _ _. }
  rewrite (lookup_rates_in_bucket env b) in Hl by done.
  apply get_exchange_rates_step in Hl
    as (Hticks & Hlog & Hpin & Hhit & Hkeep). simpl in *.
  assert (Hc : w_cache w' = w_cache w1 ∧ w_fetches w' = w_fetches w1
               ∧ (w_ticks w ≤ w_ticks w')%nat).
  { destruct Hw' as [->| ->]; simpl; repeat split; lia. }
  destruct Hc as (-> & -> & Hle). split; [done|]. split.
  - destruct Hlog as [->|(reply & -> & Hr)]; [by left|]. right.
    exists base, reply. split; [done|]. split; [done|].
    intros Hret. apply rates_of_reply_returned in Hret as [v Hv].
    exists v. apply Hpin. congruence.
  - intros k v Hp Hk Hkb. split; [by apply Hkeep|].
    destruct Hlog as [->|(reply & Hlog & Hr)]; [done|].
    rewrite Hlog, fetches_for_cons.
    destruct (decide ((base, b) = k)) as [<-|]; [|done].
    destruct (Hhit v Hp) as [_ Hsame]. rewrite Hlog in Hsame.
    exfalso. apply (f_equal length) in Hsame. simpl in Hsame. lia.
Qed.

Lemma perform_all_keeps_pinned env b actions : ∀ g w k v,
  supported (Gui.from_currency_var g) →
  in_bucket env b w →
  pinned k v (Lru.entries (w_cache w)) →
  k.1 ∈ SUPPORTED_CURRENCIES → k.2 = b →
  let st := perform_all env actions (g, w) in
  supported (Gui.from_currency_var st.1) ∧
  in_bucket env b st.2 ∧
  pinned k v (Lru.entries (w_cache st.2)) ∧
  fetches_for k (w_fetches st.2) = fetches_for k (w_fetches w).
Proof.
  induction actions as [|a rest IH]; intros g w k v Hg Hb Hp Hk Hkb; cbv zeta.
  { done. }
  rewrite perform_all_cons.
  destruct (perform_touched env a g w Hg) as [Hg1 Ht].
  destruct (touched_step env b _ _ Hb Ht) as (Hle & _ & Hkeep).
  destruct (Hkeep k v Hp Hk Hkb) as [Hp1 Hf1].
  assert (Hb1 := in_bucket_later env b _ _ Hle Hb).
  destruct (perform env a (g, w)) as [g1 w1]. simpl in *.
  destruct (IH g1 w1 k v Hg1 Hb1 Hp1 Hk Hkb) as (Hg2 & Hb2 & Hp2 & Hf2).
  repeat (split; [done|]). congruence.
Qed.

(** X10. The bound on provider calls holds for the form and the HTTP
    service taken together, when what they do happens one thing after
    the other (each request or form action finished before the next
    starts; overlapping calls are outside this statement): over any such
    run within one hour bucket [b], among the provider calls made for
    [(base, b)] every call but the latest one made [get_exchange_rates]
    raise, so at most one of them returned. *)
Theorem form_and_http_share_fetches env b actions base : ∀ g w,
  supported (Gui.from_currency_var g) →
  in_bucket env b w →
  ∃ new,
    w_fetches (perform_all env actions (g, w)).2 = new ++ w_fetches w ∧
    match fetches_for (base, b) new with
    | [] => True
    | _ :: older => Forall (fun r => returned r = false) older
    end ∧
    (length (filter (fun r => returned r = true) (fetches_for (base, b) new)) ≤ 1)%nat.
Proof.
  assert (Hcount : ∀ l : list provider_reply,
             match l with
             | [] => True
             | _ :: older => Forall (fun r => returned r = false) older
             end →
             (length (filter (fun r => returned r = true) l) ≤ 1)%nat).
  { intros [|x older] H; simpl; [lia|].
    assert (filter (fun r => returned r = true) older = []) as Hnil.
    { induction H as [|y l Hy _ IH]; [done|].
      rewrite filter_cons. destruct (decide _); [congruence | done]. }
    rewrite filter_cons, Hnil. destruct (decide _); simpl; lia. }
  cut (∀ g w, supported (Gui.from_currency_var g) → in_bucket env b w →
         ∃ new,
           w_fetches (perform_all env actions (g, w)).2 = new ++ w_fetches w ∧
           match fetches_for (base, b) new with
           | [] => True
           | _ :: older => Forall (fun r => returned r = false) older
           end).
  { intros H g w Hg Hb. destruct (H g w Hg Hb) as (new & Hnew & Hshape).
    exists new. auto. }
  induction actions as [|a rest IH]; intros g w Hg Hb.
  { exists []. done. }
  rewrite perform_all_cons.
  destruct (perform_touched env a g w Hg) as [Hg1 Ht].
  destruct (touched_step env b _ _ Hb Ht) as (Hle & Hlog & _).
  assert (Hb1 := in_bucket_later env b _ _ Hle Hb).
  destruct (perform env a (g, w)) as [g1 w1]. simpl in *.
  destruct (IH g1 w1 Hg1 Hb1) as (new2 & Hnew2 & Hshape2).
  destruct Hlog as [Hsame|(base' & reply & Hsup & Hcons & Hret)].
  { exists new2. by rewrite Hnew2, Hsame. }
  exists (new2 ++ [((base', b), reply)]).
  split; [by rewrite Hnew2, Hcons, <- app_assoc|].
  rewrite fetches_for_app, fetches_for_cons.
  destruct (decide ((base', b) = (base, b))) as [Heq|Hne];
    [|by rewrite app_nil_r].
  injection Heq as ->.
  change (fetches_for (base, b) []) with (@nil provider_reply).
  destruct (returned reply) eqn:Hr.
  - destruct (Hret eq_refl) as [v Hp].
    destruct (perform_all_keeps_pinned env b rest g1 w1 (base, b) v
                Hg1 Hb1 Hp Hsup eq_refl) as (_ & _ & _ & Hnone).
    rewrite Hnew2, fetches_for_app in Hnone.
    assert (fetches_for (base, b) new2 = []) as ->.
    { apply (f_equal length) in Hnone. rewrite length_app in Hnone.
      destruct (fetches_for (base, b) new2); [done | simpl in Hnone; lia]. }
    simpl. constructor.
  - destruct (fetches_for (base, b) new2) as [|x older]; simpl.
    + constructor.
    + apply Forall_app. split; [done|]. by constructor.
Qed.

Lemma form_and_http_share_fetches_witness :
  ∃ new,
    w_fetches (perform_all env_up [ClickConvert; Http (GET_convert gbp_usd_100);
                                   ClickConvert]
                 (Gui.initial, initial_world)).2
    = new ++ w_fetches initial_world ∧
    match fetches_for ("GBP", ten_o_clock) new with
    | [] => True
    | _ :: older => Forall (fun r => returned r = false) older
    end ∧
    (length (filter (fun r => returned r = true)
               (fetches_for ("GBP", ten_o_clock) new)) ≤ 1)%nat.
Proof.
  apply (form_and_http_share_fetches env_up ten_o_clock
           [ClickConvert; Http (GET_convert gbp_usd_100); ClickConvert] "GBP"
           Gui.initial initial_world).
  - vm_compute. constructor.
  - apply standing_clock_in_bucket.
Defined.

Lemma get_cache_key_in_bucket env b w :
  in_bucket env b w → get_cache_key env w = (Ret b, tick w).
Proof.
  intros Hb. unfold get_cache_key, datetime_now, lift, mbind, Py_bind.
  by rewrite (Hb (w_ticks w)).
Qed.

Lemma gui_convert_body_table env g amount w table rate x w1 :
  lookup_rates env (Gui.from_currency_var g) w = (Ret (JObject table), w1) →
  table !! Gui.to_currency_var g = Some rate →
  Json.as_float rate = Ret x →
  Gui.convert_body env g amount w
  = (Ret (Gui.set_status
            ("Ready | Last Update: " +:+ Gui.clock_text (clock env (w_ticks w1)))
            (Gui.set_result
               (Gui.result_line (Gui.from_currency_var g) (Gui.to_currency_var g)
                  amount (Float.mul amount x))
               (Gui.rate_line (Gui.from_currency_var g) (Gui.to_currency_var g) x)
               (Gui.set_status "Converting..." g))),
     tick w1).
Proof.
  intros Hl Hrate Hx.
  destruct (gui_convert_body_cases env g amount w) as (res & w1' & Hl' & Hc).
  rewrite Hl in Hl'. injection Hl' as <- <-.
  destruct Hc as [(e & Hraise & _)|[[? _]|[((rates & [= <-] & _ & Hno) & _)|
                   (table' & rate' & x' & [= <-] & Hrate' & Hx' & ->)]]].
  - exfalso. revert Hraise.
    unfold Gui.convert_body, mbind, Py_bind. revert Hl.
    unfold lookup_rates, mbind, Py_bind.
    destruct (get_cache_key env w) as [[key|?] w0]; [|done].
    intros ->. unfold lift, Json.contains, Json.subscript, Json.times.
    rewrite Hrate, bool_decide_eq_true_2 by eauto. simpl. rewrite Hx. done.
  - done.
  - simpl in Hno. rewrite Hrate, bool_decide_eq_true_2 in Hno by eauto. done.
  - rewrite Hrate in Hrate'. injection Hrate' as <-.
    rewrite Hx in Hx'. injection Hx' as <-. reflexivity.
Qed.

Lemma group3_short s : (String.length s ≤ 3)%nat → Format.group3 s = s.
Proof.
  destruct s as [|a [|b [|c [|d r]]]]; simpl; intros; try reflexivity. lia.
Qed.

Lemma string_length_app (s t : string) :
  String.length (s +:+ t) = (String.length s + String.length t)%nat.
Proof. induction s as [|c r IH]; simpl; [done | by rewrite IH]. Qed.

Lemma group3_app3 s t :
  s ≠ "" → String.length t = 3%nat →
  Format.group3 (s +:+ t) = Format.group3 s +:+ "," +:+ t.
Proof.
  intros Hs Ht. induction s as [|c r IH]; [done|].
  destruct r as [|d r'].
  - destruct t as [|x [|y [|z [|? ?]]]]; try done.
  - specialize (IH ltac:(done)).
    change (Format.group3 (String c (String d r') +:+ t))
      with (if (0 <? Z.of_nat (String.length (String d r' +:+ t)))
               && (Z.of_nat (String.length (String d r' +:+ t)) mod 3 =? 0)
            then String c (String "," (Format.group3 (String d r' +:+ t)))
            else String c (Format.group3 (String d r' +:+ t))).
    change (Format.group3 (String c (String d r')))
      with (if (0 <? Z.of_nat (String.length (String d r')))
               && (Z.of_nat (String.length (String d r')) mod 3 =? 0)
            then String c (String "," (Format.group3 (String d r')))
            else String c (Format.group3 (String d r'))).
    rewrite IH, string_length_app, Ht.
    replace (Z.of_nat (String.length (String d r') + 3))
      with (Z.of_nat (String.length (String d r')) + 1 * 3) by lia.
    rewrite Z_mod_plus_full.
    assert (0 < Z.of_nat (String.length (String d r'))) as Hpos by (simpl; lia).
    replace (0 <? Z.of_nat (String.length (String d r')) + 1 * 3) with true
      by (symmetry; apply Z.ltb_lt; lia).
    replace (0 <? Z.of_nat (String.length (String d r'))) with true
      by (symmetry; by apply Z.ltb_lt).
    by destruct (_ =? 0).
Qed.

Lemma split_last3 s :
  (3 < String.length s)%nat →
  ∃ s1 t, s = s1 +:+ t ∧ String.length t = 3%nat ∧ s1 ≠ "" ∧
          (String.length s1 < String.length s)%nat.
Proof.
  induction s as [|c r IH]; simpl; [lia|]. intros Hlen.
  destruct (decide (String.length r = 3%nat)) as [H3|H3].
  - exists (String c ""), r. simpl. repeat split; [done | done | lia].
  - destruct IH as (s1 & t & -> & Ht & _ & Hlt); [lia|].
    exists (String c s1), t. simpl. repeat split; [done | done | lia].
Qed.

Lemma group3_grouped s : grouped s (Format.group3 s).
Proof.
  remember (String.length s) as n eqn:Hn. revert s Hn.
  induction (lt_wf n) as [n _ IH]. intros s ->.
  destruct (decide (String.length s ≤ 3)%nat) as [Hle|Hgt].
  - rewrite group3_short by done. by constructor.
  - destruct (split_last3 s) as (s1 & t & -> & Ht & Hs1 & Hlt); [lia|].
    rewrite group3_app3 by done. constructor; [done | done |].
    by apply (IH (String.length s1)).
Qed.

(** [format(x, '.Nf')] and [format(x, ',.Nf')] give the numeral of [x]
    with [N] digits after the point. *)
Lemma fixed_numeral places grouping x :
  (0 < places)%nat → numeral places grouping x (Format.fixed places grouping x).
Proof.
  intros Hp. destruct places as [|k]; [lia|].
  assert (Hw : ∀ neg n,
             ∃ whole,
               (if grouping
                then grouped (Text.decimal (n / 10 ^ Z.of_nat (S k))) whole
                else whole = Text.decimal (n / 10 ^ Z.of_nat (S k))) ∧
               Format.sign neg +:+ Format.digits (S k) grouping n
               = (if neg then "-" else "") +:+ whole +:+ "."
                 +:+ Text.pad0 (S k) (n mod 10 ^ Z.of_nat (S k))).
  { intros neg n. unfold Format.digits, Format.sign.
    destruct grouping.
    - eexists. split; [apply group3_grouped|].
      destruct neg; reflexivity.
    - eexists. split; [reflexivity|].
      destruct neg; reflexivity. }
  unfold numeral. destruct x as [neg|[]| |neg m e]; try reflexivity.
  - apply Hw.
  - exists (Format.scaled (S k) m e). split; [|apply Hw].
    apply nearest_integer_scaled. apply Z.pow_pos_nonneg; lia.
Qed.

(** X11. After an HTTP conversion has succeeded, a conversion on the
    form for the same pair later in the same bucket (whatever requests
    and form actions came in between, one after the other) is served
    from the cached table: no provider call and no dialog; the rate line
    reads [Exchange Rate: 1 <from> = <rate> <to>] with the exchange rate
    of the HTTP answer as a numeral with four digits after the point;
    the result line reads [<symbol><amount> <from> = <symbol><product>
    <to>] with the form's amount and its product with that rate as
    numerals with two digits after the point and thousands separators;
    the result is shown in green and the status bar ends on
    [Ready | Last Update]. *)
Theorem form_uses_table_of_http_conversion env b args w0 c g0 actions amount :
  in_bucket env b w0 →
  supported (Gui.from_currency_var g0) →
  (convert_currency env args w0).1 = Converted c →
  let st := perform_all env actions (g0, (convert_currency env args w0).2) in
  Gui.from_currency_var st.1 = from_currency c →
  Gui.to_currency_var st.1 = to_currency c →
  Float.float_of_string (Gui.amount_var st.1) = Some amount →
  Float.leb amount Float.zero = false →
  let r := Gui.convert_currency env st.1 st.2 in
  w_fetches r.2 = w_fetches st.2 ∧
  Gui.dialogs r.1 = Gui.dialogs st.1 ∧
  ∃ rate rate_text amount_text product_text,
    Json.as_float (exchange_rate c) = Ret rate ∧
    numeral 4 false rate rate_text ∧
    numeral 2 true amount amount_text ∧
    numeral 2 true (Float.mul amount rate) product_text ∧
    Gui.rate_text r.1
    = "Exchange Rate: 1 " +:+ from_currency c +:+ " = " +:+ rate_text
      +:+ " " +:+ to_currency c ∧
    Gui.result_text r.1
    = default "" (CURRENCY_SYMBOLS !! from_currency c) +:+ amount_text +:+ " "
      +:+ from_currency c +:+ " = "
      +:+ default "" (CURRENCY_SYMBOLS !! to_currency c) +:+ product_text +:+ " "
      +:+ to_currency c ∧
    Gui.result_foreground r.1 = "green" ∧
    ∃ n, Gui.status_var r.1
         = "Ready | Last Update: " +:+ Gui.clock_text (clock env n).
Proof.
  intros Hb Hg0 H1 st Hfrom Hto Ha Hx r. subst r.
  destruct (convert_currency_inv env args w0)
    as [[_ H400]|(x & _ & Hf & _ & _ & _ & Heq)].
  { rewrite H1 in H400. done. }
  assert (Hsup := validate_currency_upper _ Hf : arg_from args ∈ _).
  revert st Hfrom Hto Ha Hx. rewrite Heq in H1 |- *.
  rewrite (lookup_rates_in_bucket env b) in H1 |- * by done.
  destruct (get_exchange_rates env (arg_from args) b (tick w0)) as [res wa] eqn:E.
  destruct (convert_answer_Converted _ _ _ _ _ _ _ H1)
    as (table & rate & y & -> & Hrate & Hy & Hc).
  rewrite Hc in H1 |- *. injection H1 as <-. simpl.
  apply get_exchange_rates_step in E as (Hticks & _ & Hpin & _).
  specialize (Hpin _ eq_refl). simpl in Hticks.
  assert (Hb1 : in_bucket env b (tick wa))
    by (apply (in_bucket_later env b w0); [simpl; lia | done]).
  destruct (perform_all_keeps_pinned env b actions g0 (tick wa) _ _
              Hg0 Hb1 Hpin Hsup eq_refl) as (_ & Hb2 & Hp2 & _).
  destruct (perform_all env actions (g0, tick wa)) as [g2 w2]. simpl in *.
  intros Hfrom Hto Ha Hx.
  unfold Gui.convert_currency. rewrite Ha, Hx.
  destruct (lookup_rates env (Gui.from_currency_var g2) w2) as [res w3] eqn:E2.
  pose proof E2 as E3.
  rewrite (lookup_rates_in_bucket env b) in E3 by done. rewrite Hfrom in E3.
  apply get_exchange_rates_step in E3 as (_ & _ & _ & Hhit & _).
  destruct (Hhit _ Hp2) as [-> Hsame].
  rewrite (gui_convert_body_table env g2 amount w2 table rate y w3)
    by (done || by rewrite Hto).
  simpl. split; [done|]. split; [done|].
  rewrite Hfrom, Hto.
  exists y, (Format.fixed 4 false y), (Format.fixed 2 true amount),
    (Format.fixed 2 true (Float.mul amount y)).
  split; [done|].
  split; [apply fixed_numeral; lia|].
  split; [apply fixed_numeral; lia|].
  split; [apply fixed_numeral; lia|].
  split; [reflexivity|]. split; [|split; [reflexivity | eauto]].
  reflexivity.
Qed.

Lemma form_uses_table_of_http_conversion_witness :
  let shown :=
    (Gui.convert_currency env_up
       (perform_all env_up [TypeAmount "2,5"; ClickConvert; TypeAmount "2.5"]
          (Gui.initial, (convert_currency env_up gbp_usd_100 initial_world).2)).1
       (perform_all env_up [TypeAmount "2,5"; ClickConvert; TypeAmount "2.5"]
          (Gui.initial, (convert_currency env_up gbp_usd_100 initial_world).2)).2).1 in
  Gui.rate_text shown = "Exchange Rate: 1 GBP = 1.2700 USD" ∧
  Gui.result_text shown = "£2.50 GBP = $3.17 USD" ∧
  Gui.status_var shown = "Ready | Last Update: 10:17:42" ∧
  let st := perform_all env_up [TypeAmount "2,5"; ClickConvert; TypeAmount "2.5"]
              (Gui.initial, (convert_currency env_up gbp_usd_100 initial_world).2) in
  let r := Gui.convert_currency env_up st.1 st.2 in
  w_fetches r.2 = w_fetches st.2 ∧
  Gui.dialogs r.1 = Gui.dialogs st.1 ∧
  ∃ rate rate_text amount_text product_text,
    Json.as_float (exchange_rate gbp_usd_answer) = Ret rate ∧
    numeral 4 false rate rate_text ∧
    numeral 2 true two_and_a_half amount_text ∧
    numeral 2 true (Float.mul two_and_a_half rate) product_text ∧
    Gui.rate_text r.1
    = "Exchange Rate: 1 " +:+ from_currency gbp_usd_answer +:+ " = " +:+ rate_text
      +:+ " " +:+ to_currency gbp_usd_answer ∧
    Gui.result_text r.1
    = default "" (CURRENCY_SYMBOLS !! from_currency gbp_usd_answer) +:+ amount_text
      +:+ " " +:+ from_currency gbp_usd_answer +:+ " = "
      +:+ default "" (CURRENCY_SYMBOLS !! to_currency gbp_usd_answer)
      +:+ product_text +:+ " " +:+ to_currency gbp_usd_answer ∧
    Gui.result_foreground r.1 = "green" ∧
    ∃ n, Gui.status_var r.1
         = "Ready | Last Update: " +:+ Gui.clock_text (clock env_up n).
Proof.
  intros shown. subst shown.
  split; [vm_compute; reflexivity|]. split; [vm_compute; reflexivity|].
  split; [vm_compute; reflexivity|].
  apply (form_uses_table_of_http_conversion env_up ten_o_clock gbp_usd_100
           initial_world gbp_usd_answer Gui.initial
           [TypeAmount "2,5"; ClickConvert; TypeAmount "2.5"]
           two_and_a_half).
  - apply standing_clock_in_bucket.
  - vm_compute. constructor.
  - vm_compute. reflexivity.
  - vm_compute. reflexivity.
  - vm_compute. reflexivity.
  - vm_compute. reflexivity.
  - vm_compute. reflexivity.
Defined.

(** The form after the HTTP conversion of 100 GBP, letter by letter: 2.5
    GBP at 1.27, and 1234567.891 GBP at 1.27. *)
Lemma form_texts :
  let w := (convert_currency env_up gbp_usd_100 initial_world).2 in
  let shown amount :=
    (Gui.convert_currency env_up (Gui.type_amount amount Gui.initial) w).1 in
  Gui.rate_text (shown "2.5") = "Exchange Rate: 1 GBP = 1.2700 USD" ∧
  Gui.result_text (shown "2.5") = "£2.50 GBP = $3.17 USD" ∧
  Gui.status_var (shown "2.5") = "Ready | Last Update: 10:17:42" ∧
  Gui.result_text (shown "1234567.891") = "£1,234,567.89 GBP = $1,567,901.22 USD" ∧
  Float.float_of_string "2.5" = Some two_and_a_half ∧
  Float.float_of_string "1234567.891" = Some a_million_odd ∧
  Format.fixed 2 true (S754_finite false 7149464408450662 (-51)) = "3.17" ∧
  Format.fixed 2 false (S754_finite true 4503599627370496 (-55)) = "-0.12" ∧
  Format.fixed 4 false (Float.of_Z 2) = "2.0000".
Proof. vm_compute. done. Qed.

(** ** A new hour *)





(** ** The status bar *)



(** The status bar after one click on the form as [__init__] builds it
    (100 GBP to USD), for five providers: up; up with JPY picked; down;
    replying with a list; quoting USD as a text. *)
Lemma status_after_click :
  let status env g := Gui.status_var (Gui.convert_currency env g initial_world).1 in
  status env_up Gui.initial = "Ready | Last Update: 10:17:42" ∧
  status env_up (Gui.pick_to "JPY" Gui.initial) = "Converting..." ∧
  status env_down_once Gui.initial = "Ready | API: Error" ∧
  status env_garbled_once Gui.initial = "Ready | API: Error" ∧
  status env_text_rate Gui.initial = "Ready | API: Error" ∧
  Gui.dialogs (Gui.convert_currency env_text_rate Gui.initial initial_world).1
  = [Gui.Unexpected TypeError].
Proof. vm_compute. done. Qed.

(** ** The two amount checks *)

(** X14. The form and the HTTP handler check the amount in the same way:
    for a non-empty amount text, the form answers with its
    [InvalidInput] dialog exactly when the HTTP handler (given two
    supported currency codes) answers [InvalidAmount]. *)
Theorem form_and_http_agree_on_amounts env env' g w args w' :
  all_present args = true →
  validate_currency (arg_from args) = true →
  validate_currency (arg_to args) = true →
  Gui.amount_var g = arg_amount args →
  Gui.dialogs (Gui.convert_currency env g w).1 = Gui.InvalidInput :: Gui.dialogs g
  ↔ (convert_currency env' args w').1 = InvalidAmount.
Proof.
  intros Hp Hf Ht Hamount.
  assert (Hhttp : ∀ x, Float.float_of_string (arg_amount args) = Some x →
                  Float.leb x Float.zero = false →
                  (convert_currency env' args w').1 ≠ InvalidAmount).
  { intros x Ha Hx H. pose proof (convert_answer_not_400 env' (arg_from args)
      (arg_to args) x (lookup_rates env' (arg_from args) w')) as H400.
    rewrite <- (convert_currency_checked env' args w' x) in H400 by done.
    rewrite H in H400. done. }
  assert (Hself : ∀ (d : Gui.dialog) l, l ≠ d :: l).
  { intros d l H. apply (f_equal length) in H. simpl in H. lia. }
  unfold Gui.convert_currency. rewrite Hamount.
  destruct (Float.float_of_string (arg_amount args)) as [x|] eqn:Ha.
  2: { rewrite convert_currency_bad_amount by auto. done. }
  destruct (Float.leb x Float.zero) eqn:Hx.
  { rewrite convert_currency_bad_amount by eauto. done. }
  split; [|intros H; by apply (Hhttp x) in H].
  intros H. exfalso. revert H.
  destruct (gui_convert_body_cases env g x w) as (res & w1 & Hl & Hc).
  destruct Hc as [(e & -> & _)|[[_ ->]|[[_ ->]|(table & rate & y & -> & _ & _ & ->)]]];
    simpl; try discriminate.
  intros H. by apply Hself in H.
Qed.

Lemma form_and_http_agree_on_amounts_witness :
  Gui.dialogs (Gui.convert_currency env_up (Gui.type_amount "-5" Gui.initial)
                 initial_world).1
  = Gui.InvalidInput :: Gui.dialogs (Gui.type_amount "-5" Gui.initial)
  ↔ (convert_currency env_down_once (query "GBP" "USD" "-5") initial_world).1
    = InvalidAmount.
Proof.
  apply (form_and_http_agree_on_amounts env_up env_down_once
           (Gui.type_amount "-5" Gui.initial) initial_world
           (query "GBP" "USD" "-5") initial_world);
    vm_compute; reflexivity.
Defined.

(** ** Cache entries are not rewritten *)

Lemma find_value_under (e : cache_key * json)
    (o : option (json * list (cache_key * json))) :
  fst <$> (o ≫= fun p => let '(x, r') := p in Some (x, e :: r')) = fst <$> o.
Proof. by destruct o as [[]|]. Qed.

Lemma find_other k k' l v0 rest :
  Lru.find k' l = Some (v0, rest) → k ≠ k' →
  fst <$> Lru.find k rest = fst <$> Lru.find k l.
Proof.
  revert rest. induction l as [|[k0 v] r IH]; intros rest; simpl; [done|].
  destruct (decide (k' = k0)) as [->|Hne'].
  - intros [= <- <-] Hne. rewrite decide_False by done.
    by rewrite find_value_under.
  - destruct (Lru.find k' r) as [[x r']|] eqn:E; simpl; [|done].
    intros [= <- <-] Hne. simpl.
    destruct (decide (k = k0)); [done|].
    rewrite !find_value_under. by apply IH.
Qed.

Lemma find_removelast k l v rest :
  Lru.find k l = Some (v, rest) →
  fst <$> Lru.find k (removelast l) = Some v ∨ Lru.find k (removelast l) = None.
Proof.
  revert rest. induction l as [|[k0 v0] [|e r] IH]; intros rest; [done|by right|].
  change (removelast ((k0, v0) :: e :: r)) with ((k0, v0) :: removelast (e :: r)).
  remember (e :: r) as tl eqn:Htl.
  simpl. destruct (decide (k = k0)).
  - intros [= <- <-]. by left.
  - destruct (Lru.find k tl) as [[x r']|] eqn:E; simpl; [|done].
    intros [= <- <-]. destruct (IH r' eq_refl) as [H|H].
    + left. by rewrite find_value_under.
    + right. by rewrite H.
Qed.

(** X15. A memoised call never rewrites an entry: a key that is cached
    with value [v] before the call is, after it, either still cached with
    [v] or evicted, whatever the call was for and whatever the provider
    replied. *)
Theorem cached_value_never_rewritten env base key w k v rest :
  Lru.find k (Lru.entries (w_cache w)) = Some (v, rest) →
  let l' := Lru.entries (w_cache (get_exchange_rates env base key w).2) in
  fst <$> Lru.find k l' = Some v ∨ Lru.find k l' = None.
Proof.
  intros Hk l'. subst l'. rewrite get_exchange_rates_eq. cbv zeta.
  destruct (Lru.find (base, key) _) as [[v0 rest0]|] eqn:E; simpl.
  - left. destruct (decide (k = (base, key))) as [->|Hne].
    + rewrite E in Hk. by injection Hk as -> _.
    + rewrite find_value_under.
      rewrite (find_other k (base, key) _ v0 rest0 E Hne). by rewrite Hk.
  - destruct (rates_of_reply _) as [v'|e]; simpl; [|left; by rewrite Hk].
    assert (k ≠ (base, key)) as Hne by (intros ->; congruence).
    unfold Lru.store. simpl. rewrite decide_False by done.
    destruct (decide _).
    + destruct (find_removelast _ _ _ _ Hk) as [H|H].
      * left. by rewrite find_value_under.
      * right. by rewrite H.
    + left. rewrite find_value_under. by rewrite Hk.
Qed.

Lemma cached_value_never_rewritten_witness :
  let w := (get_exchange_rates env_up "GBP" ten_o_clock initial_world).2 in
  let l' := Lru.entries (w_cache (get_exchange_rates env_up "EUR" ten_o_clock w).2) in
  fst <$> Lru.find ("GBP", ten_o_clock) l' = Some (JObject usd_table)
  ∨ Lru.find ("GBP", ten_o_clock) l' = None.
Proof.
  apply (cached_value_never_rewritten env_up "EUR" ten_o_clock
           (get_exchange_rates env_up "GBP" ten_o_clock initial_world).2
           ("GBP", ten_o_clock) (JObject usd_table) []).
  vm_compute. reflexivity.
Defined.
